(** * DocXEditor: tracked-change substitution and comment anchoring

    A shallow embedding of [src/DocXEditor.py].  The document part
    [word/document.xml] is an element tree as [lxml] exposes it (tag,
    attributes, text, children); [modify_text_in_doc] works on that tree
    directly, [add_comment_to_paragraph] works on the same tree through the
    paragraph and run proxies of the [docx] package.

    Conventions of the model:
    - a Python [str] is a [string] whose characters are the code points
      below 256;
    - a qualified name such as [{NS_W}p] is written ["w:p"];
    - the [tail] text of an element is not represented: the code never
      looks at it;
    - the clock, the files on disk and the id counter are explicit state. *)

From Stdlib Require Import ZArith Lia Ascii String Bool.
From stdpp Require Import base strings list gmap sorting.

Set Warnings "-register-all".

Local Open Scope Z_scope.

(** ** Python strings *)

Module PyStr.

(** Truthiness of a [str]: only the empty string is false. *)
Definition truthy (s : string) : bool :=
  match s with EmptyString => false | String _ _ => true end.

Fixpoint drop (n : nat) (s : string) : string :=
  match n, s with
  | O, _ => s
  | S _, EmptyString => EmptyString
  | S n', String _ s' => drop n' s'
  end.

(** [s.find(sub)]: index of the first occurrence, if any. *)
Fixpoint find (sub s : string) : option nat :=
  if String.prefix sub s then Some O
  else match s with
       | EmptyString => None
       | String _ s' => S <$> find sub s'
       end.

(** [sub in s] *)
Definition contains (sub s : string) : bool :=
  match find sub s with Some _ => true | None => false end.

(** The text before and after the first occurrence of [sep] in [s]. *)
Fixpoint split_first (sep s : string) : option (string * string) :=
  if String.prefix sep s then Some (EmptyString, drop (String.length sep) s)
  else match s with
       | EmptyString => None
       | String c s' =>
           match split_first sep s' with
           | Some (b, a) => Some (String c b, a)
           | None => None
           end
       end.

(** [s.partition(sep)]; [None] stands for
    [ValueError: empty separator]. *)
Definition partition (sep s : string) : option (string * string * string) :=
  if truthy sep then
    match split_first sep s with
    | Some (b, a) => Some (b, sep, a)
    | None => Some (s, EmptyString, EmptyString)
    end
  else None.

(** [c.isspace()] for a code point below 256. *)
Definition isspace (c : ascii) : bool :=
  let n := nat_of_ascii c in
  ((9 <=? n) && (n <=? 13) || (28 <=? n) && (n <=? 32)
   || (n =? 133) || (n =? 160))%nat.

Fixpoint lstrip (s : string) : string :=
  match s with
  | EmptyString => EmptyString
  | String c s' => if isspace c then lstrip s' else s
  end.

Definition rstrip (s : string) : string :=
  String.rev (lstrip (String.rev s)).

(** [s.strip()] *)
Definition strip (s : string) : string := rstrip (lstrip s).

Fixpoint all_space (s : string) : bool :=
  match s with
  | EmptyString => true
  | String c s' => isspace c && all_space s'
  end.

Definition digit_val (c : ascii) : option Z :=
  let n := nat_of_ascii c in
  if ((48 <=? n) && (n <=? 57))%nat then Some (Z.of_nat n - 48) else None.

(** Digits with single underscores between them, as [int] accepts. *)
Fixpoint int_body (after_digit : bool) (acc : Z) (s : string) : option Z :=
  match s with
  | EmptyString => if after_digit then Some acc else None
  | String c s' =>
      match digit_val c with
      | Some d => int_body true (10 * acc + d) s'
      | None =>
          if Ascii.eqb c "_" && after_digit then int_body false acc s'
          else None
      end
  end.

(** [int(s)]; [None] stands for [ValueError]. *)
Definition int (s : string) : option Z :=
  match strip s with
  | String "-" s' => Z.opp <$> int_body false 0 s'
  | String "+" s' => int_body false 0 s'
  | s' => int_body false 0 s'
  end.

Fixpoint nat_digits (fuel : nat) (n : N) (acc : string) : string :=
  match fuel with
  | O => acc
  | S fuel' =>
      let acc' := String (ascii_of_N (48 + N.modulo n 10)) acc in
      if (N.div n 10 =? 0)%N then acc' else nat_digits fuel' (N.div n 10) acc'
  end.

(** [str(n)] for a natural number. *)
Definition str_N (n : N) : string :=
  nat_digits (S (N.to_nat (N.log2 n))) n EmptyString.

(** [str(n)] for an [int]. *)
Definition str (n : Z) : string :=
  match n with
  | Z0 => "0"
  | Zpos p => str_N (Npos p)
  | Zneg p => String "-" (str_N (Npos p))
  end.

(** [str(n).zfill(w)] for a natural number. *)
Definition zfill (w : nat) (n : N) : string :=
  let s := str_N n in
  String.concat EmptyString (replicate (w - String.length s) "0") +:+ s.

End PyStr.

(** ** Element trees *)

(** An element as [lxml.etree] exposes it. *)
Inductive xml : Type :=
  Elem (tag : string) (attrib : list (string * string))
       (text : option string) (kids : list xml).

Definition tag_of (e : xml) : string := let 'Elem t _ _ _ := e in t.
Definition attrib_of (e : xml) : list (string * string) :=
  let 'Elem _ a _ _ := e in a.
Definition text_of (e : xml) : option string := let 'Elem _ _ x _ := e in x.
Definition kids_of (e : xml) : list xml := let 'Elem _ _ _ ks := e in ks.

Definition set_text (x : option string) (e : xml) : xml :=
  let 'Elem t a _ ks := e in Elem t a x ks.
Definition set_kids (ks : list xml) (e : xml) : xml :=
  let 'Elem t a x _ := e in Elem t a x ks.

Definition has_tag (t : string) (e : xml) : bool := String.eqb (tag_of e) t.

(** [e.get(name)] *)
Fixpoint attr_get (name : string) (a : list (string * string)) : option string :=
  match a with
  | [] => None
  | (n, v) :: a' => if String.eqb n name then Some v else attr_get name a'
  end.

(** The text of an element as Python sees it in a boolean or string
    context: [None] and [""] are both falsy. *)
Definition text_or_empty (e : xml) : string := default EmptyString (text_of e).

(** A node is addressed by the child indices leading to it. *)
Definition path := list nat.

Fixpoint get (pi : path) (e : xml) : option xml :=
  match pi with
  | [] => Some e
  | i :: pi' => kids_of e !! i ≫= get pi'
  end.

(** Rewrite the child list of the node at [rho]. *)
Fixpoint alter_kids (f : list xml → list xml) (rho : path) (e : xml) : xml :=
  match rho with
  | [] => set_kids (f (kids_of e)) e
  | i :: rho' => set_kids (alter (alter_kids f rho') i (kids_of e)) e
  end.

(** [path = parent ++ [index]] *)
Definition split_last (pi : path) : option (path * nat) :=
  match reverse pi with
  | [] => None
  | i :: r => Some (reverse r, i)
  end.

(** All proper descendants with their paths, in document order. *)
Fixpoint descendants (e : xml) : list (path * xml) :=
  let 'Elem _ _ _ ks := e in
  (fix go (i : nat) (l : list xml) : list (path * xml) :=
     match l with
     | [] => []
     | k :: l' =>
         (([i], k) :: map (λ d, (i :: d.1, d.2)) (descendants k))
           ++ go (S i) l'
     end) 0%nat ks.

(** The loop of [descendants] over the children from number [i] on. *)
Fixpoint descendants_from (i : nat) (l : list xml) : list (path * xml) :=
  match l with
  | [] => []
  | k :: l' =>
      (([i], k) :: map (λ d, (i :: d.1, d.2)) (descendants k))
        ++ descendants_from (S i) l'
  end.

(** The element and all its descendants, in document order. *)
Fixpoint elements (e : xml) : list xml :=
  let 'Elem _ _ _ ks := e in e :: concat (map elements ks).

(** [e.xpath(".//w:t")] *)
Definition xpath_desc (t : string) (e : xml) : list (path * xml) :=
  filter (λ d, has_tag t d.2 = true) (descendants e).

(** [l.insert(i, x)]: an index past the end appends. *)
Definition insert_at {A} (i : nat) (x : A) (l : list A) : list A :=
  take i l ++ x :: drop i l.

(** ** Time *)

Record datetime := {
  year : N; month : N; day : N;
  hour : N; minute : N; second : N; microsecond : N }.

(** [d.isoformat()] of a naive datetime. *)
Definition isoformat (d : datetime) : string :=
  PyStr.zfill 4 (year d) +:+ "-" +:+ PyStr.zfill 2 (month d) +:+ "-"
  +:+ PyStr.zfill 2 (day d) +:+ "T" +:+ PyStr.zfill 2 (hour d) +:+ ":"
  +:+ PyStr.zfill 2 (minute d) +:+ ":" +:+ PyStr.zfill 2 (second d)
  +:+ (if (microsecond d =? 0)%N then EmptyString
       else "." +:+ PyStr.zfill 6 (microsecond d)).

(** ** The session and its surroundings *)

Inductive exn :=
  ValueError | AttributeError | FileNotFoundError | PackageNotFoundError.

(** How a call ends: it returns [None] or raises. *)
Inductive outcome := Returned | Raised (x : exn).

(** The three lines [add_comment_to_paragraph] can print. *)
Inductive message := SkippingEmpty | TextNotFound | CommentAdded.

(** A [.docx] archive: the main document part, the ids of the character
    styles its styles part defines besides the default one, and the
    comments part as [(text, author, initials)] entries. *)
Record docx := {
  document : xml;
  char_styles : list string;
  comments : list (string * string * string) }.

(** The reading of [datetime.utcnow()]: [utcnow k] is its k-th value. *)
Record clock := { utcnow : nat → datetime; reads : nat }.

Definition tick (c : clock) : datetime * clock :=
  (utcnow c (reads c), {| utcnow := utcnow c; reads := S (reads c) |}).

(** What lies outside the editor object: the archives on disk by path,
    the extracted copy under [temp_dir], the clock and standard output. *)
Record world := {
  disk : gmap string docx;
  temp : option docx;
  time : clock;
  stdout : list message }.

(** The fields of a [DocXEditor]; [id_counter] is the next value of the
    [itertools.count] object. *)
Record session := {
  docx_path : string;
  output_path : string;
  id_counter : Z;
  doc_tree : xml }.

(** ** Change ids *)

(** [//w:ins/@w:id | //w:del/@w:id] *)
Definition revision_ids (tree : xml) : list string :=
  omap (λ e, if has_tag "w:ins" e || has_tag "w:del" e
             then attr_get "w:id" (attrib_of e) else None)
       (elements tree).

(** [max(map(int, ids), default=0)]; [None] stands for the [ValueError] of
    [int]. *)
Definition max_int (ids : list string) : option Z :=
  ns ← mapM PyStr.int ids;
  Some (match ns with
        | [] => 0
        | n :: ns' => foldr Z.max n ns'
        end).

(** [_highest_existing_change_id]: 0 when the part cannot be read. *)
Definition _highest_existing_change_id (w : world) : option Z :=
  match temp w with
  | None => Some 0
  | Some d => max_int (revision_ids (document d))
  end.

(** [_unzip]: the temporary directory is emptied, then filled from the
    archive at [docx_path]. *)
Definition _unzip (path : string) (w : world) : outcome * world :=
  match disk w !! path with
  | None => (Raised FileNotFoundError,
             {| disk := disk w; temp := None; time := time w;
                stdout := stdout w |})
  | Some d => (Returned,
               {| disk := disk w; temp := Some d; time := time w;
                  stdout := stdout w |})
  end.

(** [DocXEditor(docx_path, output_path)] *)
Definition init (docx_path output_path : string) (w : world)
    : (exn + session) * world :=
  match _unzip docx_path w with
  | (Raised x, w) => (inl x, w)
  | (Returned, w) =>
      match _highest_existing_change_id w, temp w with
      | Some m, Some d =>
          (inr {| docx_path := docx_path; output_path := output_path;
                  id_counter := m + 1; doc_tree := document d |}, w)
      | _, _ => (inl ValueError, w)
      end
  end.

(** [get_full_text] *)
Definition get_full_text (para : xml) : string :=
  String.concat EmptyString
    (map (λ d, text_or_empty d.2)
       (filter (λ d, PyStr.truthy (text_or_empty d.2) = true)
          (xpath_desc "w:t" para))).

(** ** Tracked-change substitution *)

(** What one call of [modify_text_in_doc] threads through its loops: the
    id counter, the clock, the ids handed out so far (oldest first) and
    the exception that ended the call, if any. *)
Record estate := {
  counter : Z;
  clk : clock;
  issued : list Z;
  raised : option exn }.

Definition raise (x : exn) (st : estate) : estate :=
  {| counter := counter st; clk := clk st; issued := issued st;
     raised := Some x |}.

(** [_next_change_id]: [str(next(self._id_counter))] *)
Definition _next_change_id (st : estate) : string * estate :=
  (PyStr.str (counter st),
   {| counter := counter st + 1; clk := clk st;
      issued := issued st ++ [counter st]; raised := raised st |}).

(** [datetime.utcnow().isoformat()] *)
Definition utcnow_iso (st : estate) : string * estate :=
  let '(d, c) := tick (clk st) in
  (isoformat d,
   {| counter := counter st; clk := c; issued := issued st;
      raised := raised st |}).

Definition del_el (change_id author date old_text : string) : xml :=
  Elem "w:del" [("w:id", change_id); ("w:author", author); ("w:date", date)]
    None [Elem "w:r" [] None [Elem "w:delText" [] (Some old_text) []]].

Definition ins_el (change_id author date new_text : string) : xml :=
  Elem "w:ins" [("w:id", change_id); ("w:author", author); ("w:date", date)]
    None [Elem "w:r" [] None [Elem "w:t" [] (Some (" " +:+ new_text)) []]].

Definition run_after (after : string) : xml :=
  Elem "w:r" [] None [Elem "w:t" [] (Some after) []].

(** Lines 135-171 on the child list [ks] of [p], where [ks !! run_idx] is
    [parent_run] and its child number [t_idx] is [t]. *)
Definition splice (old_text new_text author change_id d_del d_ins : string)
    (before after : string) (run_idx t_idx : nat) (ks : list xml)
    : list xml :=
  let '(ks, run_idx) :=
    if PyStr.truthy before
    then (alter (λ r, set_kids (alter (set_text (Some before)) t_idx
                                  (kids_of r)) r) run_idx ks,
          S run_idx)
    else (delete run_idx ks, run_idx) in
  let ks := insert_at run_idx (del_el change_id author d_del old_text) ks in
  let run_idx := S run_idx in
  let ks := insert_at run_idx (ins_el change_id author d_ins new_text) ks in
  let run_idx := S run_idx in
  if PyStr.truthy after then insert_at run_idx (run_after after) ks else ks.

(** The test of line 127, negated: [t.text and old_text in t.text]. *)
Definition matches (old_text : string) (t : xml) : bool :=
  PyStr.truthy (text_or_empty t) && PyStr.contains old_text (text_or_empty t).

(** The first [w:t] of the paragraph that the inner loop does not skip. *)
Definition locate (old_text : string) (para : xml) : option (path * xml) :=
  List.find (λ d, matches old_text d.2) (xpath_desc "w:t" para).

(** Lines 142-171 as a function of [p]'s child list. *)
Definition edit (old_text new_text author before after : string)
    (st : estate) : (nat → nat → list xml → list xml) * estate :=
  let '(change_id, st) := _next_change_id st in
  let '(d_del, st) := utcnow_iso st in
  let '(d_ins, st) := utcnow_iso st in
  (splice old_text new_text author change_id d_del d_ins before after, st).

(** The state after one substitution: one id and two clock readings on. *)
Definition advanced (st : estate) : estate :=
  {| counter := counter st + 1;
     clk := {| utcnow := utcnow (clk st); reads := S (S (reads (clk st))) |};
     issued := issued st ++ [counter st];
     raised := raised st |}.

(** One iteration of the outer loop (lines 126-172) on a paragraph.  The
    result is what stands in the paragraph's place afterwards: the
    paragraph itself, edited, or, when the matching [w:t] is a child of
    the paragraph itself so that [p] is the paragraph's parent, the
    paragraph (if kept) followed by the new siblings.  [top] tells that the
    paragraph is the root, which has no parent. *)
Definition modify_para (old_text new_text author : string) (top : bool)
    (para : xml) (st : estate) : list xml * estate :=
  match raised st with
  | Some _ => ([para], st)
  | None =>
    match locate old_text para with
    | None => ([para], st)
    | Some (pi_t, t) =>
      match PyStr.partition old_text (text_or_empty t) with
      | None => ([para], raise ValueError st)
      | Some (before, _, after) =>
        match split_last pi_t with
        | None => ([para], st)
        | Some (pi_run, t_idx) =>
          match split_last pi_run with
          | Some (rho, run_idx) =>
              let '(f, st) := edit old_text new_text author before after st in
              ([alter_kids (f run_idx t_idx) rho para], st)
          | None =>
              if top then ([para], raise AttributeError st)
              else
                let '(f, st) :=
                  edit old_text new_text author before after st in
                (f 0%nat t_idx [para], st)
          end
        end
      end
    end
  end.

(** The outer loop over [//w:p], in document order.  A [w:p] inside
    another [w:p] (text-box content) is not visited on its own: the model
    covers trees whose paragraphs are not nested, see [flat]. *)
Fixpoint walk (old_text new_text author : string) (top : bool) (e : xml)
    (st : estate) : list xml * estate :=
  if has_tag "w:p" e then modify_para old_text new_text author top e st
  else
    let 'Elem t a x ks := e in
    let '(ks', st') :=
      (fix go (l : list xml) (st : estate) : list xml * estate :=
         match l with
         | [] => ([], st)
         | k :: l' =>
             let '(r, st) := walk old_text new_text author false k st in
             let '(rs, st) := go l' st in
             (r ++ rs, st)
         end) ks st in
    ([Elem t a x ks'], st').

(** The loop of [walk] over a list of siblings. *)
Fixpoint walk_kids (old_text new_text author : string) (l : list xml)
    (st : estate) : list xml * estate :=
  match l with
  | [] => ([], st)
  | k :: l' =>
      let '(r, st) := walk old_text new_text author false k st in
      let '(rs, st) := walk_kids old_text new_text author l' st in
      (r ++ rs, st)
  end.


(** [modify_text_in_doc(old_text, new_text, full_paragraph_text, author)]:
    how the call ends, the change ids it handed out, and the session and
    world it leaves. *)
Definition modify_text_in_doc
    (old_text new_text full_paragraph_text author : string)
    (s : session) (w : world) : outcome * list Z * session * world :=
  let st := {| counter := id_counter s; clk := time w; issued := [];
               raised := None |} in
  let '(r, st) := walk old_text new_text author true (doc_tree s) st in
  (match raised st with Some x => Raised x | None => Returned end,
   issued st,
   {| docx_path := docx_path s; output_path := output_path s;
      id_counter := counter st;
      doc_tree := default (doc_tree s) (head r) |},
   {| disk := disk w; temp := temp w; time := clk st; stdout := stdout w |}).

(** A paragraph with a non-empty [w:t], and a tree in which the loop
    meets such a paragraph. *)
Definition has_text (para : xml) : bool :=
  existsb (λ d, PyStr.truthy (text_or_empty d.2)) (xpath_desc "w:t" para).

Fixpoint some_text (e : xml) : bool :=
  let 'Elem _ _ _ ks := e in
  if has_tag "w:p" e then has_text e else existsb some_text ks.




(** The arguments of one call of [modify_text_in_doc]. *)
Record call := {
  c_old_text : string; c_new_text : string;
  c_full_paragraph_text : string; c_author : string }.

(** A sequence of calls on one session, with all the change ids handed
    out, in order. *)
Fixpoint substitutions (calls : list call) (s : session) (w : world)
    : list Z * session * world :=
  match calls with
  | [] => ([], s, w)
  | c :: calls' =>
      let '(_, ids, s, w) :=
        modify_text_in_doc (c_old_text c) (c_new_text c)
          (c_full_paragraph_text c) (c_author c) s w in
      let '(ids', s, w) := substitutions calls' s w in
      (ids ++ ids', s, w)
  end.

(** [save]: the tree is written over the extracted document part, the
    temporary directory is zipped to [output_path] and removed. *)
Definition save (s : session) (w : world) : outcome * world :=
  match temp w with
  | None => (Raised FileNotFoundError, w)
  | Some d =>
      (Returned,
       {| disk := <[output_path s :=
                     {| document := doc_tree s; char_styles := char_styles d;
                        comments := comments d |}]> (disk w);
          temp := None; time := time w; stdout := stdout w |})
  end.

(** ** The paragraph and run proxies of the [docx] package

    What the editor uses of the package, as python-docx 0.8 (of which
    bayoo-docx is a fork) implements it on the element tree. *)

Module Docx.

(** The text a run child stands for in [Run.text]. *)
Definition piece (k : xml) : string :=
  if has_tag "w:t" k then text_or_empty k
  else if has_tag "w:tab" k then String "009" EmptyString
  else if has_tag "w:br" k || has_tag "w:cr" k then String "010" EmptyString
  else EmptyString.

(** [run.text] *)
Definition run_text (r : xml) : string :=
  String.concat EmptyString (map piece (kids_of r)).

(** [para.runs], each with its position among the paragraph's children. *)
Definition runs (para : xml) : list (nat * xml) :=
  filter (λ d, has_tag "w:r" d.2 = true) (imap pair (kids_of para)).

(** [para.text] *)
Definition para_text (para : xml) : string :=
  String.concat EmptyString (map (λ d, run_text d.2) (runs para)).

(** A new [w:t]; [xml:space="preserve"] is set when the text has leading
    or trailing white space. *)
Definition new_t (s : string) : xml :=
  Elem "w:t"
    (if (String.length (PyStr.strip s) <? String.length s)%nat
     then [("xml:space", "preserve")] else [])
    (Some s) [].

Definition flush (bfr : string) : list xml :=
  if PyStr.truthy bfr then [new_t bfr] else [].

(** The run content for a text: a tab becomes [w:tab], a line feed or a
    carriage return becomes [w:br], the characters between them go to
    [w:t] elements. *)
Fixpoint content_of (bfr s : string) : list xml :=
  match s with
  | EmptyString => flush bfr
  | String c s' =>
      if Ascii.eqb c "009" then
        flush bfr ++ Elem "w:tab" [] None [] :: content_of EmptyString s'
      else if Ascii.eqb c "010" || Ascii.eqb c "013" then
        flush bfr ++ Elem "w:br" [] None [] :: content_of EmptyString s'
      else content_of (bfr +:+ String c EmptyString) s'
  end.

(** [run.text = s]: the content is replaced, the run properties stay. *)
Definition set_run_text (s : string) (r : xml) : xml :=
  set_kids (List.filter (has_tag "w:rPr") (kids_of r) ++ content_of EmptyString s) r.

Definition new_run : xml := Elem "w:r" [] None [].

(** The run [para.add_run(text)] appends to the paragraph. *)
Definition added_run (s : string) : xml :=
  if PyStr.truthy s then set_run_text s new_run else new_run.

(** The [w:rStyle] value of a run, if it has one. *)
Definition style_id (r : xml) : option string :=
  rPr ← List.find (has_tag "w:rPr") (kids_of r);
  rStyle ← List.find (has_tag "w:rStyle") (kids_of rPr);
  attr_get "w:val" (attrib_of rStyle).

(** [run.style] as a value that can be assigned to another run: the id of
    the run's character style when the styles part defines it and it is
    not the default, otherwise none. *)
Definition style (styles : list string) (r : xml) : option string :=
  sid ← style_id r;
  if bool_decide (sid ∈ styles) then Some sid else None.

Definition set_attr (name v : string) (e : xml) : xml :=
  let 'Elem t a x ks := e in
  Elem t ((name, v) :: List.filter (λ nv, negb (String.eqb nv.1 name)) a) x ks.

(** [rPr.style = sid] *)
Definition set_rPr_style (sid : option string) (rPr : xml) : xml :=
  match sid with
  | None => set_kids (List.filter (λ k, negb (has_tag "w:rStyle" k)) (kids_of rPr)) rPr
  | Some v =>
      match list_find (λ k, has_tag "w:rStyle" k = true) (kids_of rPr) with
      | Some (i, _) => set_kids (alter (set_attr "w:val" v) i (kids_of rPr)) rPr
      | None => set_kids (Elem "w:rStyle" [("w:val", v)] None [] :: kids_of rPr) rPr
      end
  end.

(** [run.style = sid]: the run gets a [w:rPr] if it has none. *)
Definition set_style (sid : option string) (r : xml) : xml :=
  match list_find (λ k, has_tag "w:rPr" k = true) (kids_of r) with
  | Some (i, _) => set_kids (alter (set_rPr_style sid) i (kids_of r)) r
  | None => set_kids (set_rPr_style sid (Elem "w:rPr" [] None []) :: kids_of r) r
  end.



(** [l[i].addnext(l[j])]: the element at [j] moves to just after the one
    at [i]. *)
Definition addnext {A} (i j : nat) (l : list A) : list A :=
  match l !! j with
  | None => l
  | Some x =>
      let i' := if bool_decide (j < i)%nat then pred i else i in
      insert_at (S i') x (delete j l)
  end.

End Docx.

(** ** Comment anchoring *)

(** The first run of the paragraph whose text contains the target
    (lines 216-220), by its position among the paragraph's children. *)
Definition find_run (target_text : string) (para : xml) : option (nat * xml) :=
  list_find (λ k, has_tag "w:r" k && PyStr.contains target_text (Docx.run_text k) = true)
    (kids_of para).

(** The paragraphs the loop of line 211 does not skip. *)
Definition hosts (target_text : string) (b : xml) : bool :=
  has_tag "w:p" b && PyStr.contains target_text (Docx.para_text b)
  && bool_decide (is_Some (find_run target_text b)).

(** Lines 225-244 on the child list of the paragraph: the run at
    [run_idx] keeps the text before the target, the target and the text
    after it go to new runs placed behind it.  The result comes with the
    position of the target run. *)
Definition split_run (styles : list string) (target_text : string)
    (run_idx : nat) (ks : list xml) : option (list xml * nat) :=
  run ← ks !! run_idx;
  '(before, _, after) ← PyStr.partition target_text (Docx.run_text run);
  let run := Docx.set_run_text before run in
  let ks := <[run_idx := run]> ks in
  let target_idx := length ks in
  let ks := ks ++ [Docx.set_style (Docx.style styles run)
                     (Docx.added_run target_text)] in
  let after_idx := length ks in
  let ks :=
    if PyStr.truthy after
    then ks ++ [Docx.set_style (Docx.style styles run) (Docx.added_run after)]
    else ks in
  let ks := Docx.addnext run_idx target_idx ks in
  let target_idx := S run_idx in
  let ks :=
    if PyStr.truthy after then Docx.addnext target_idx after_idx ks else ks in
  Some (ks, target_idx).

(** [_insert_paragraph_after]: a copy of the paragraph without its
    children becomes its next sibling; the result is the position of the
    last paragraph of the body, as line 206 takes it. *)
Definition _insert_paragraph_after (para_idx : nat) (body : list xml)
    : option (list xml * nat) :=
  para ← body !! para_idx;
  let new_p := set_kids [] para in
  let body := insert_at (S para_idx) new_p body in
  last_p ← last (filter (λ d, has_tag "w:p" d.2 = true) (imap pair body));
  Some (body, last_p.1).

(** Lines 225-252 on the children of the body: the split, then the
    anchor run.  The result comes with the positions of the paragraph
    and of the run that hold the anchor. *)
Definition insert_anchor (styles : list string) (target_text : string)
    (new_paragraph : bool) (para_idx run_idx : nat) (body : list xml)
    : option (list xml * (nat * nat)) :=
  para ← body !! para_idx;
  '(ks, target_idx) ← split_run styles target_text run_idx (kids_of para);
  let body := <[para_idx := set_kids ks para]> body in
  if new_paragraph then
    '(body, anchor_para) ← _insert_paragraph_after para_idx body;
    p ← body !! anchor_para;
    Some (<[anchor_para := set_kids (kids_of p ++ [Docx.added_run EmptyString]) p]> body,
          (anchor_para, length (kids_of p)))
  else
    let ks := ks ++ [Docx.added_run EmptyString] in
    let ks := Docx.addnext target_idx (length ks - 1) ks in
    Some (<[para_idx := set_kids ks para]> body, (para_idx, S target_idx)).

Section Anchoring.

(** [anchor_run.add_comment(text, author, initials)] of bayoo-docx: the
    comments part gets the entry and the document the markers around the
    anchor run.  The editor's own code does not depend on how. *)
Variable run_add_comment :
  string → string → string → nat * nat → docx → docx.

(** The loop of lines 211-261 on the document opened from the archive. *)
Definition annotate (target_text comment_text author initials : string)
    (new_paragraph : bool) (d : docx) : exn + option docx :=
  match list_find (λ k, has_tag "w:body" k = true) (kids_of (document d)) with
  | None => inl AttributeError
  | Some (body_idx, body) =>
      match list_find (λ b, hosts target_text b = true) (kids_of body) with
      | None => inr None
      | Some (para_idx, para) =>
          match find_run target_text para with
          | None => inr None
          | Some (run_idx, _) =>
              match insert_anchor (char_styles d) target_text new_paragraph
                      para_idx run_idx (kids_of body) with
              | None => inl ValueError
              | Some (ks, anchor) =>
                  let root :=
                    set_kids (<[body_idx := set_kids ks body]>
                                (kids_of (document d))) (document d) in
                  inr (Some (run_add_comment comment_text author initials
                               anchor
                               {| document := root;
                                  char_styles := char_styles d;
                                  comments := comments d |}))
              end
          end
      end
  end.

Definition print (m : message) (w : world) : world :=
  {| disk := disk w; temp := temp w; time := time w;
     stdout := stdout w ++ [m] |}.

(** [add_comment_to_paragraph(target_text, comment_text, author, initials,
    new_paragraph=...)] *)
Definition add_comment_to_paragraph
    (target_text comment_text author initials : string)
    (new_paragraph : bool) (s : session) (w : world)
    : outcome * session * world :=
  if negb (PyStr.truthy target_text)
     || negb (PyStr.truthy (PyStr.strip target_text))
  then (Returned, s, print SkippingEmpty w)
  else
    match disk w !! docx_path s with
    | None => (Raised PackageNotFoundError, s, w)
    | Some d =>
        match annotate target_text comment_text author initials
                new_paragraph d with
        | inl x => (Raised x, s, w)
        | inr None => (Returned, s, print TextNotFound w)
        | inr (Some d') =>
            let w := {| disk := <[output_path s := d']> (disk w);
                        temp := temp w; time := time w;
                        stdout := stdout w |} in
            let s := {| docx_path := output_path s;
                        output_path := output_path s;
                        id_counter := id_counter s;
                        doc_tree := doc_tree s |} in
            match _unzip (docx_path s) w with
            | (Raised x, w) => (Raised x, s, w)
            | (Returned, w) =>
                match _highest_existing_change_id w, temp w with
                | Some m, Some t =>
                    (Returned,
                     {| docx_path := docx_path s;
                        output_path := output_path s;
                        id_counter := m + 1;
                        doc_tree := document t |},
                     print CommentAdded w)
                | _, _ => (Raised ValueError, s, w)
                end
            end
        end
    end.

End Anchoring.

(** The session has just been created, or has just been reloaded by a
    call that added a comment. *)
Inductive began (run_add_comment : string → string → string → nat * nat → docx → docx)
    : session → Prop :=
  | began_init docx_path output_path w0 s w :
      init docx_path output_path w0 = (inr s, w) →
      began run_add_comment s
  | began_reload target_text comment_text author initials new_paragraph s0 w0 s w :
      add_comment_to_paragraph run_add_comment target_text comment_text
        author initials new_paragraph s0 w0 = (Returned, s, w) →
      stdout w = stdout w0 ++ [CommentAdded] →
      began run_add_comment s.

(** ** Further notions used in the properties *)

(** A text without white space. *)
Fixpoint no_space (s : string) : bool :=
  match s with
  | EmptyString => true
  | String c s' => negb (PyStr.isspace c) && no_space s'
  end.

(** A text without white space that starts with a digit. *)
Definition plain (s : string) : Prop :=
  no_space s = true
  ∧ ∃ c s', s = String c s' ∧ is_Some (PyStr.digit_val c).

(** The revision id an element carries itself. *)
Definition own_id (e : xml) : option string :=
  if has_tag "w:ins" e || has_tag "w:del" e
  then attr_get "w:id" (attrib_of e) else None.

(** Every revision id of the tree satisfies [S]. *)
Definition ids_in (S : string → Prop) (tree : xml) : Prop :=
  ∀ a, a ∈ revision_ids tree → S a.

(** Every revision id of the tree is a number below [c]. *)
Definition ids_below (c : Z) (tree : xml) : Prop :=
  ids_in (λ a, ∃ v, PyStr.int a = Some v ∧ v < c) tree.

(** The [paragraphs] property: the paragraphs of the body of the
    archive at [docx_path], opened anew at every access. *)
Definition paragraphs (s : session) (w : world) : exn + list xml :=
  match disk w !! docx_path s with
  | None => inl PackageNotFoundError
  | Some d =>
      match list_find (λ k, has_tag "w:body" k = true)
              (kids_of (document d)) with
      | None => inl AttributeError
      | Some (_, body) =>
          inr (filter (λ k, has_tag "w:p" k = true) (kids_of body))
      end
  end.





(** ** Sample data *)

Module Sample.

Definition T (s : string) : xml := Elem "w:t" [] (Some s) [].
Definition R (ks : list xml) : xml := Elem "w:r" [] None ks.
Definition P (ks : list xml) : xml := Elem "w:p" [] None ks.
Definition Doc (body : list xml) : xml :=
  Elem "w:document" [] None [Elem "w:body" [] None body].

(** A run in bold with the character style [Strong]. *)
Definition strong_bold : xml :=
  Elem "w:rPr" [] None
    [Elem "w:rStyle" [("w:val", "Strong")] None []; Elem "w:b" [] None []].

(** A clock whose k-th reading is k microseconds past a fixed instant. *)
Definition clock0 : clock :=
  {| utcnow := λ k, {| year := 2025; month := 6; day := 1; hour := 12;
                       minute := 0; second := 0;
                       microsecond := N.of_nat k |};
     reads := 0 |}.

Definition file (tree : xml) : docx :=
  {| document := tree; char_styles := ["Strong"]; comments := [] |}.

(** A world with one archive, [in.docx]. *)
Definition world0 (tree : xml) : world :=
  {| disk := {[ "in.docx" := file tree ]}; temp := None; time := clock0;
     stdout := [] |}.

(** The session [DocXEditor("in.docx", "out.docx")] starts with on that
    archive when it holds no revision. *)
Definition session0 (tree : xml) : session :=
  {| docx_path := "in.docx"; output_path := "out.docx"; id_counter := 1;
     doc_tree := tree |}.

Definition estate0 : estate :=
  {| counter := 1; clk := clock0; issued := []; raised := None |}.

(** One paragraph, one run: the scenario of the entry point. *)
Definition intro_doc : xml := Doc [P [R [T "See INTRODUCTION for details."]]].


(** A document that carries a tracked insertion with id 7. *)
Definition revised_doc : xml :=
  Doc [P [R [T "INTRODUCTION"];
          Elem "w:ins" [("w:id", "7"); ("w:author", "A"); ("w:date", "D")]
            None [R [T "more"]]]].

(** A document whose only paragraph has no text. *)
Definition blank_doc : xml := Doc [P []].

(** The session [DocXEditor("in.docx", "out.docx")] starts with on an
    archive that holds [revised_doc], and two calls on it. *)
Definition session7 : session :=
  {| docx_path := "in.docx"; output_path := "out.docx"; id_counter := 8;
     doc_tree := revised_doc |}.

Definition two_calls : list call :=
  [{| c_old_text := "INTRODUCTION"; c_new_text := "A";
      c_full_paragraph_text := ""; c_author := "Fuad" |};
   {| c_old_text := "more"; c_new_text := "B";
      c_full_paragraph_text := ""; c_author := "Fuad" |}].

(** A stand-in for [add_comment] that files the comment and leaves the
    document as it is. *)
Definition file_comment (text author initials : string) (anchor : nat * nat)
    (d : docx) : docx :=
  {| document := document d; char_styles := char_styles d;
     comments := comments d ++ [(text, author, initials)] |}.

(** The entry point's comment on a document that is one run,
    ["INTRODUCTION"]: the document, the archive and the session it
    leaves. *)
Definition title_doc : xml := Doc [P [R [T "INTRODUCTION"]]].

Definition commented_doc : xml :=
  Doc [P [R []; R [Elem "w:rPr" [] None []; T "INTRODUCTION"]; R []]].

Definition commented_file : docx :=
  {| document := commented_doc; char_styles := ["Strong"];
     comments := [("Please clarify.", "Reviewer", "RV")] |}.

Definition commented_session : session :=
  {| docx_path := "out.docx"; output_path := "out.docx"; id_counter := 1;
     doc_tree := commented_doc |}.

Definition commented_world : world :=
  {| disk := <["out.docx" := commented_file]> (disk (world0 title_doc));
     temp := Some commented_file; time := clock0;
     stdout := [CommentAdded] |}.

(** A paragraph whose text, ["INTRODUCTION"], is split over two runs. *)
Definition split_doc : xml := Doc [P [R [T "INTRO"]; R [T "DUCTION"]]].

(** A document with a tracked insertion whose id is not a number. *)
Definition bad_id_doc : xml :=
  Doc [P [Elem "w:ins" [("w:id", "x1"); ("w:author", "A"); ("w:date", "D")]
            None [R [T "more"]]]].

(** The world right after [DocXEditor("in.docx", "out.docx")]: the
    archive is extracted. *)
Definition opened (tree : xml) : world :=
  {| disk := {[ "in.docx" := file tree ]}; temp := Some (file tree);
     time := clock0; stdout := [] |}.

End Sample.

(** * Properties *)

#[local] Arguments String.append !_ _ / : simpl nomatch.

(** ** Strings *)

Module PyStrFacts.
Import PyStr.

Lemma append_empty_r (s : string) : s +:+ EmptyString = s.
Proof. induction s as [|c s IH]; simpl; [done | by rewrite IH]. Qed.

Lemma append_assoc (a b c : string) : (a +:+ b) +:+ c = a +:+ b +:+ c.
Proof. induction a as [|x a IH]; simpl; [done | by rewrite IH]. Qed.

Lemma append_length (a b : string) :
  String.length (a +:+ b) = (String.length a + String.length b)%nat.
Proof. induction a as [|x a IH]; simpl; [done | by rewrite IH]. Qed.


Lemma truthy_true (s : string) : truthy s = true → s ≠ EmptyString.
Proof. by destruct s. Qed.

Lemma prefix_app (p s : string) : String.prefix p (p +:+ s) = true.
Proof.
  induction p as [|c p IH]; simpl; [by destruct s |].
  destruct (ascii_dec c c); [done | congruence].
Qed.

Lemma prefix_drop (p s : string) :
  String.prefix p s = true → s = p +:+ drop (String.length p) s.
Proof.
  revert s; induction p as [|c p IH]; intros s H; simpl; [done |].
  destruct s as [|d s]; simpl in H; [done |].
  destruct (ascii_dec c d) as [->|]; [| done].
  f_equal. by apply IH.
Qed.


Lemma find_eq (sub s : string) :
  find sub s =
  if String.prefix sub s then Some O
  else match s with
       | EmptyString => None
       | String _ s' => S <$> find sub s'
       end.
Proof. by destruct s. Qed.

Lemma split_first_eq (sep s : string) :
  split_first sep s =
  if String.prefix sep s then Some (EmptyString, drop (String.length sep) s)
  else match s with
       | EmptyString => None
       | String c s' =>
           match split_first sep s' with
           | Some (b, a) => Some (String c b, a)
           | None => None
           end
       end.
Proof. by destruct s. Qed.

Lemma split_first_app (sep s b a : string) :
  split_first sep s = Some (b, a) → s = b +:+ sep +:+ a.
Proof.
  revert b a; induction s as [|c s IH]; intros b a; rewrite split_first_eq;
    destruct (String.prefix sep _) eqn:Hp;
    try (intros [= <- <-]; by apply prefix_drop in Hp).
  destruct (split_first sep s) as [[b' a']|] eqn:Hs; [| done].
  intros [= <- <-]. simpl. f_equal. by apply IH.
Qed.


Lemma find_split_first (sep s : string) :
  find sep s = None ↔ split_first sep s = None.
Proof.
  induction s as [|c s IH]; rewrite split_first_eq, find_eq;
    destruct (String.prefix sep _); try done.
  destruct IH as [IH1 IH2].
  destruct (find sep s), (split_first sep s) as [[??]|]; simpl;
    naive_solver.
Qed.

Lemma contains_split (sep s : string) :
  contains sep s = true → ∃ b a, split_first sep s = Some (b, a).
Proof.
  unfold contains. destruct (find sep s) eqn:Hf; [| done]. intros _.
  destruct (split_first sep s) as [[b a]|] eqn:Hs; [by eauto |].
  apply find_split_first in Hs. congruence.
Qed.

Lemma contains_app (sub b a : string) : contains sub (b +:+ sub +:+ a) = true.
Proof.
  unfold contains. induction b as [|c b IH].
  - change (EmptyString +:+ sub +:+ a) with (sub +:+ a).
    by rewrite find_eq, prefix_app.
  - change (String c b +:+ sub +:+ a) with (String c (b +:+ sub +:+ a)).
    rewrite find_eq. destruct (String.prefix sub _); [done |].
    by destruct (find sub (b +:+ sub +:+ a)).
Qed.

(** A substring of a part is a substring of the whole. *)
Lemma contains_mid (sub x s y : string) :
  contains sub s = true → contains sub (x +:+ s +:+ y) = true.
Proof.
  intros H. apply contains_split in H as (b & a & H).
  apply split_first_app in H as ->.
  rewrite !append_assoc, <- (append_assoc x b). apply contains_app.
Qed.

Lemma contains_empty (s : string) : contains EmptyString s = true.
Proof. unfold contains. rewrite find_eq. by destruct s. Qed.



Lemma lstrip_all_space (s : string) :
  all_space s = true → lstrip s = EmptyString.
Proof.
  induction s as [|c s IH]; simpl; [done |].
  destruct (isspace c); simpl; [done | done].
Qed.

(** An empty or all-white-space text strips to the empty string. *)
Lemma strip_all_space (s : string) :
  all_space s = true → strip s = EmptyString.
Proof. intros H. unfold strip. by rewrite (lstrip_all_space _ H). Qed.

Lemma concat_cons (x : string) (l : list string) :
  String.concat EmptyString (x :: l) = x +:+ String.concat EmptyString l.
Proof. destruct l; simpl; [by rewrite append_empty_r | done]. Qed.

Lemma concat_append (l k : list string) :
  String.concat EmptyString (l ++ k)
  = String.concat EmptyString l +:+ String.concat EmptyString k.
Proof.
  induction l as [|x l IH]; [done |].
  rewrite <- app_comm_cons, !concat_cons, IH. by rewrite append_assoc.
Qed.

Lemma concat_elem (x : string) (l : list string) :
  x ∈ l → ∃ pre post, String.concat EmptyString l = pre +:+ x +:+ post.
Proof.
  intros (l1 & l2 & ->)%list_elem_of_split.
  exists (String.concat EmptyString l1), (String.concat EmptyString l2).
  by rewrite concat_append, concat_cons.
Qed.

End PyStrFacts.

(** ** Element trees *)

Lemma xml_ind' (P : xml → Prop) :
  (∀ t a x ks, Forall P ks → P (Elem t a x ks)) → ∀ e, P e.
Proof.
  intros step. fix IH 1. intros [t a x ks]. apply step.
  induction ks as [|k ks IHks]; constructor; [apply IH | apply IHks].
Qed.

Lemma kids_set_kids ks e : kids_of (set_kids ks e) = ks.
Proof. by destruct e. Qed.


Lemma set_kids_id e : set_kids (kids_of e) e = e.
Proof. by destruct e. Qed.

Lemma descendants_eq e : descendants e = descendants_from 0 (kids_of e).
Proof.
  destruct e as [t a x ks]; simpl. generalize 0%nat.
  induction ks as [|k ks IH]; intros i; simpl; [done |]. by rewrite IH.
Qed.

Lemma elements_eq e : elements e = e :: concat (map elements (kids_of e)).
Proof. by destruct e. Qed.

Lemma elements_self e : e ∈ elements e.
Proof. rewrite elements_eq. left. Qed.

Lemma elements_kid e k x : k ∈ kids_of e → x ∈ elements k → x ∈ elements e.
Proof.
  intros Hk Hx. rewrite elements_eq. right.
  apply list_elem_of_In, in_concat. exists (elements k).
  split; [apply in_map | ]; by apply list_elem_of_In.
Qed.





(** A descendant is found at its path, and the path is not empty. *)
Lemma descendants_get e : ∀ pi x,
  (pi, x) ∈ descendants e → get pi e = Some x ∧ pi ≠ [].
Proof.
  induction e as [t a x0 ks IH] using xml_ind'. intros pi x.
  rewrite descendants_eq. simpl.
  assert (G : ∀ l i, Forall (λ k, ∀ pi x, (pi, x) ∈ descendants k →
                                get pi k = Some x ∧ pi ≠ []) l →
              (pi, x) ∈ descendants_from i l →
              ∃ j pi', pi = (i + j)%nat :: pi' ∧ l !! j ≫= get pi' = Some x).
  { induction l as [|k l IHl]; intros i Hl; simpl; [by intros ?%elem_of_nil |].
    apply Forall_cons in Hl as [Hk Hl].
    rewrite elem_of_cons, elem_of_app, (list_elem_of_In (map _ _)), in_map_iff.
    intros [[= -> ->]|[([pi' y] & [= <- <-] & Hd%list_elem_of_In)|Hd]].
    - exists 0%nat, []. split; [f_equal; lia | done].
    - exists 0%nat, pi'. split; [f_equal; lia |]. simpl. by apply Hk.
    - destruct (IHl (S i) Hl Hd) as (j & pi' & -> & Hj).
      exists (S j), pi'. split; [f_equal; lia | done]. }
  intros Hd. destruct (G ks 0%nat IH Hd) as (j & pi' & -> & Hj). done.
Qed.

Lemma xpath_desc_tag t e pi x :
  (pi, x) ∈ xpath_desc t e →
  has_tag t x = true ∧ get pi e = Some x ∧ pi ≠ [].
Proof.
  unfold xpath_desc. rewrite list_elem_of_filter. simpl.
  intros [Ht Hd]. split; [done |]. by apply descendants_get.
Qed.


Lemma locate_None old para :
  locate old para = None ↔
  ∀ d, d ∈ xpath_desc "w:t" para → matches old d.2 = false.
Proof.
  unfold locate. split.
  - intros H d Hd. apply (find_none _ _ H). by apply list_elem_of_In.
  - intros H. destruct (List.find _ _) as [d|] eqn:E; [| done].
    apply find_some in E as [Hin Hm].
    apply list_elem_of_In, H in Hin. congruence.
Qed.






(** ** The substitution loop *)

Lemma walk_eq old new author top e st :
  walk old new author top e st =
  if has_tag "w:p" e then modify_para old new author top e st
  else let '(ks', st') := walk_kids old new author (kids_of e) st in
       ([set_kids ks' e], st').
Proof.
  destruct e as [t a x ks]. simpl. destruct (has_tag _ _); [done |].
  enough (H : ∀ l st,
    (fix go (l : list xml) (st : estate) : list xml * estate :=
       match l with
       | [] => ([], st)
       | k :: l' =>
           let '(r, st) := walk old new author false k st in
           let '(rs, st) := go l' st in
           (r ++ rs, st)
       end) l st = walk_kids old new author l st) by (by rewrite H).
  induction l as [|k l IH]; intros st'; simpl; [done |].
  destruct (walk _ _ _ _ k st'). by rewrite IH.
Qed.


Lemma modify_para_raised old new author top para st x :
  raised st = Some x → modify_para old new author top para st = ([para], st).
Proof. unfold modify_para. by intros ->. Qed.

Lemma modify_para_miss old new author top para st :
  locate old para = None →
  modify_para old new author top para st = ([para], st).
Proof. unfold modify_para. intros ->. by destruct (raised st). Qed.


Lemma walk_kids_quiet old new author l st :
  Forall (λ k, walk old new author false k st = ([k], st)) l →
  walk_kids old new author l st = (l, st).
Proof.
  induction 1 as [|k l Hk _ IH]; simpl; [done |]. by rewrite Hk, IH.
Qed.

(** Nothing happens where no paragraph has a matching text node. *)
Lemma walk_quiet old new author e :
  (∀ P, P ∈ elements e → has_tag "w:p" P = true → locate old P = None) →
  ∀ top st, walk old new author top e st = ([e], st).
Proof.
  induction e as [t a x ks IH] using xml_ind'. intros H top st.
  rewrite walk_eq. destruct (has_tag _ _) eqn:Ht.
  - apply modify_para_miss, H; [apply elements_self | done].
  - simpl. rewrite walk_kids_quiet; [done |].
    rewrite Forall_forall in IH. apply Forall_forall. intros k Hk.
    apply IH; [done |]. intros P HP. apply H. by eapply elements_kid.
Qed.

(** Once an exception is raised the rest of the loop does not run. *)
Lemma walk_raised old new author e :
  ∀ top st x, raised st = Some x → walk old new author top e st = ([e], st).
Proof.
  induction e as [t a x0 ks IH] using xml_ind'. intros top st x Hr.
  rewrite walk_eq. destruct (has_tag _ _).
  - by eapply modify_para_raised.
  - simpl. rewrite walk_kids_quiet; [done |].
    eapply Forall_impl; [exact IH |]. simpl. eauto.
Qed.

Lemma full_text_locate old para :
  PyStr.contains old (get_full_text para) = false → locate old para = None.
Proof.
  intros H. apply locate_None. intros d Hd.
  destruct (matches old d.2) eqn:Hm; [| done]. exfalso.
  apply andb_true_iff in Hm as [Ht Hc].
  assert (Hin : text_or_empty d.2 ∈
    map (λ d, text_or_empty d.2)
      (filter (λ d, PyStr.truthy (text_or_empty d.2) = true)
         (xpath_desc "w:t" para))).
  { apply list_elem_of_In.
    apply (in_map (λ d : path * xml, text_or_empty d.2)).
    apply list_elem_of_In, list_elem_of_filter. done. }
  apply PyStrFacts.concat_elem in Hin as (pre & post & E).
  unfold get_full_text in H. rewrite E in H.
  by rewrite PyStrFacts.contains_mid in H.
Qed.

Lemma session_eta s :
  {| docx_path := docx_path s; output_path := output_path s;
     id_counter := id_counter s; doc_tree := doc_tree s |} = s.
Proof. by destruct s. Qed.

Lemma world_eta w :
  {| disk := disk w; temp := temp w; time := time w; stdout := stdout w |} = w.
Proof. by destruct w. Qed.

(** C9, as far as it holds: when the old text occurs in the text of no
    paragraph, [modify_text_in_doc] returns and hands out no id, and the
    session (tree and id counter) and the world are the ones it was
    called with. *)
Theorem C9_absent_text_leaves_tree old_text new_text full_paragraph_text author s w :
  (∀ P, P ∈ elements (doc_tree s) → has_tag "w:p" P = true →
        PyStr.contains old_text (get_full_text P) = false) →
  modify_text_in_doc old_text new_text full_paragraph_text author s w
  = (Returned, [], s, w).
Proof.
  intros H. unfold modify_text_in_doc.
  rewrite walk_quiet by (intros P HP Ht; by apply full_text_locate, H).
  simpl. by rewrite session_eta, world_eta.
Qed.

(** ** An empty old text *)

Lemma locate_empty para :
  locate EmptyString para = None ↔ has_text para = false.
Proof.
  rewrite locate_None. unfold has_text. split.
  - intros H. destruct (existsb _ _) eqn:E; [| done].
    apply existsb_exists in E as (d & Hd%list_elem_of_In & Ht).
    apply H in Hd. unfold matches in Hd.
    by rewrite Ht, PyStrFacts.contains_empty in Hd.
  - intros H d Hd. unfold matches.
    destruct (PyStr.truthy _) eqn:Ht; [| done].
    assert (existsb (λ d, PyStr.truthy (text_or_empty d.2))
              (xpath_desc "w:t" para) = true); [| congruence].
    apply existsb_exists. exists d. by rewrite <- list_elem_of_In.
Qed.

Lemma modify_para_empty new author top para st :
  raised st = None →
  modify_para EmptyString new author top para st
  = ([para], if has_text para then raise ValueError st else st).
Proof.
  intros Hr. destruct (has_text para) eqn:E.
  - unfold modify_para. rewrite Hr.
    destruct (locate EmptyString para) as [[pi t]|] eqn:El.
    + done.
    + apply locate_empty in El. congruence.
  - apply modify_para_miss. by apply locate_empty.
Qed.

Lemma some_text_eq e :
  some_text e = if has_tag "w:p" e then has_text e
                else existsb some_text (kids_of e).
Proof. by destruct e. Qed.

(** With an empty old text the loop changes nothing; it raises at the
    first paragraph that has a non-empty text node. *)
Lemma walk_empty new author e :
  ∀ top st, raised st = None →
  walk EmptyString new author top e st
  = ([e], if some_text e then raise ValueError st else st).
Proof.
  induction e as [t a x ks IH] using xml_ind'. intros top st Hr.
  rewrite walk_eq, some_text_eq. destruct (has_tag _ _).
  - by apply modify_para_empty.
  - cbn [kids_of].
    enough (H : walk_kids EmptyString new author ks st
                = (ks, if existsb some_text ks then raise ValueError st else st))
      by (by rewrite H).
    revert st Hr.
    induction IH as [|k ks Hk _ IHks]; intros st Hr; simpl; [done |].
    rewrite Hk by done. destruct (some_text k); simpl.
    + rewrite walk_kids_quiet; [done |].
      apply Forall_forall. intros k' _. by eapply walk_raised.
    + by rewrite IHks.
Qed.

(** ** Change ids *)

Lemma seqZ_one m : seqZ m 1 = [m].
Proof. rewrite seqZ_cons by lia. by rewrite seqZ_nil by lia. Qed.


(** One iteration hands out at most one id, the next of the counter. *)
Lemma modify_para_progress old new author top para st r st' :
  modify_para old new author top para st = (r, st') →
  ∃ n, 0 ≤ n ∧ counter st' = counter st + n
       ∧ issued st' = issued st ++ seqZ (counter st) n.
Proof.
  unfold modify_para, edit, _next_change_id, utcnow_iso, tick.
  repeat case_match; intros [= <- <-]; simpl;
    first [ exists 0; rewrite seqZ_nil, app_nil_r by lia; split_and!; [lia | lia | done]
          | exists 1; rewrite seqZ_one; split_and!; [lia | done | done] ].
Qed.

Lemma walk_progress old new author e :
  ∀ top st r st', walk old new author top e st = (r, st') →
  ∃ n, 0 ≤ n ∧ counter st' = counter st + n
       ∧ issued st' = issued st ++ seqZ (counter st) n.
Proof.
  induction e as [t a x ks IH] using xml_ind'. intros top st r st'.
  rewrite walk_eq. destruct (has_tag _ _); [apply modify_para_progress |].
  cbn [kids_of].
  destruct (walk_kids old new author ks st) as [ks' st1] eqn:E.
  intros [= <- <-].
  revert st ks' st1 E. induction IH as [|k ks Hk _ IHks]; intros st ks' st1; simpl.
  - intros [= <- <-]. exists 0. rewrite seqZ_nil, app_nil_r by lia. split_and!; [lia | lia | done].
  - destruct (walk old new author false k st) as [r1 st2] eqn:E1.
    destruct (walk_kids old new author ks st2) as [r2 st3] eqn:E2.
    intros [= <- <-].
    destruct (Hk _ _ _ _ E1) as (n1 & ? & Hc1 & Hi1).
    destruct (IHks _ _ _ E2) as (n2 & ? & Hc2 & Hi2).
    exists (n1 + n2). split_and!; [lia | lia |].
    rewrite Hi2, Hi1, Hc1, seqZ_app by lia. by rewrite <- app_assoc.
Qed.



Lemma foldr_max_le (n : Z) (l : list Z) :
  n ≤ foldr Z.max n l ∧ Forall (λ v, v ≤ foldr Z.max n l) l.
Proof.
  induction l as [|v l [IH1 IH2]]; simpl; [by split |].
  split; [lia |]. constructor; [lia |].
  eapply Forall_impl; [exact IH2 |]. simpl. lia.
Qed.

(** [max_int] bounds every id of the list from above, and is 0 for the
    empty list. *)
Lemma max_int_spec ids m :
  max_int ids = Some m →
  (ids = [] → m = 0)
  ∧ ∀ a, a ∈ ids → ∃ v, PyStr.int a = Some v ∧ v ≤ m.
Proof.
  unfold max_int. destruct (mapM PyStr.int ids) as [ns|] eqn:E; [| done].
  simpl. intros [= <-]. apply mapM_Some in E. split.
  - intros ->. by apply Forall2_nil_inv_l in E as ->.
  - intros a Ha. apply list_elem_of_lookup in Ha as [i Hi].
    destruct (Forall2_lookup_l _ _ _ _ _ E Hi) as (v & Hv & Hav).
    exists v. split; [done |]. apply list_elem_of_lookup_2 in Hv.
    destruct ns as [|n ns]; [by apply elem_of_nil in Hv |].
    destruct (foldr_max_le n ns) as [H1 H2]. rewrite Forall_forall in H2.
    apply elem_of_cons in Hv as [->|Hv]; [done | by apply H2].
Qed.

Lemma init_seeded docx_path output_path w0 s w :
  init docx_path output_path w0 = (inr s, w) →
  max_int (revision_ids (doc_tree s)) = Some (id_counter s - 1).
Proof.
  unfold init, _unzip, _highest_existing_change_id.
  destruct (disk w0 !! docx_path) as [d|]; [| done]. simpl.
  destruct (max_int _) as [m|] eqn:E; [| done].
  intros [= <- <-]. simpl. rewrite E. f_equal. lia.
Qed.

Lemma began_seeded rac s :
  began rac s → max_int (revision_ids (doc_tree s)) = Some (id_counter s - 1).
Proof.
  intros [p o w0 s' w H | t c a i np s0 w0 s' w H Hout].
  - by eapply init_seeded.
  - revert H. unfold add_comment_to_paragraph.
    destruct (_ || _).
    { intros [= <- <-]. simpl in Hout. by apply app_inj_tail in Hout as [_ [=]]. }
    destruct (disk w0 !! docx_path s0) as [d|]; [| done].
    destruct (annotate _ _ _ _ _ _ _) as [x|[d'|]]; [done | |].
    2:{ intros [= <- <-]. simpl in Hout. by apply app_inj_tail in Hout as [_ [=]]. }
    unfold _unzip, _highest_existing_change_id. simpl.
    rewrite lookup_insert_eq. simpl.
    destruct (max_int _) as [m|] eqn:E; [| done].
    intros [= <- <-]. simpl. rewrite E. f_equal. lia.
Qed.


(** ** One substitution in every paragraph *)









(** ** Blank arguments *)

(** C8, amended: [add_comment_to_paragraph] with an empty or all-white-space
    target prints its warning and returns, and [modify_text_in_doc] with
    an empty old text raises [ValueError] when the loop meets a paragraph
    with a non-empty text node and returns otherwise; in each case the
    session, its tree and id counter and the files are as before. *)
Theorem C8_blank_text_changes_nothing run_add_comment
    target_text comment_text author initials new_paragraph
    new_text full_paragraph_text author' s w :
  PyStr.all_space target_text = true →
  add_comment_to_paragraph run_add_comment target_text comment_text author
    initials new_paragraph s w
  = (Returned, s, print SkippingEmpty w)
  ∧ modify_text_in_doc EmptyString new_text full_paragraph_text author' s w
    = (if some_text (doc_tree s) then Raised ValueError else Returned,
       [], s, w).
Proof.
  intros Hs. split.
  - unfold add_comment_to_paragraph.
    rewrite (PyStrFacts.strip_all_space _ Hs). simpl.
    by rewrite orb_true_r.
  - unfold modify_text_in_doc. rewrite walk_empty by done.
    destruct (some_text (doc_tree s)); simpl; by rewrite session_eta, world_eta.
Qed.

(** ** Reloading after a comment *)

(** What a call that added a comment did. *)
Lemma add_comment_added rac target comment author initials np s w s' w' :
  add_comment_to_paragraph rac target comment author initials np s w
  = (Returned, s', w') →
  stdout w' = stdout w ++ [CommentAdded] →
  ∃ d d' m,
    (negb (PyStr.truthy target) || negb (PyStr.truthy (PyStr.strip target))) = false
    ∧ disk w !! docx_path s = Some d
    ∧ annotate rac target comment author initials np d = inr (Some d')
    ∧ max_int (revision_ids (document d')) = Some m
    ∧ s' = {| docx_path := output_path s; output_path := output_path s;
              id_counter := m + 1; doc_tree := document d' |}
    ∧ w' = {| disk := <[output_path s := d']> (disk w); temp := Some d';
              time := time w; stdout := stdout w ++ [CommentAdded] |}.
Proof.
  unfold add_comment_to_paragraph.
  destruct (_ || _) eqn:Hg.
  { intros [= <- <-]. simpl. by intros [_ [=]]%app_inj_tail. }
  destruct (disk w !! docx_path s) as [d|] eqn:Hd; [| done].
  destruct (annotate _ _ _ _ _ _ _) as [x|[d'|]] eqn:Ha; [done | |].
  2:{ intros [= <- <-]. simpl. by intros [_ [=]]%app_inj_tail. }
  unfold _unzip, _highest_existing_change_id. simpl.
  rewrite lookup_insert_eq. simpl.
  destruct (max_int _) as [m|] eqn:E; [| done].
  intros [= <- <-] _. by exists d, d', m.
Qed.

(** A call that adds a comment reads the archive at [docx_path] and
    nothing of the tree or the counter in memory. *)
Lemma add_comment_frame rac target comment author initials np s w s' w' s2 w2 :
  add_comment_to_paragraph rac target comment author initials np s w
  = (Returned, s', w') →
  stdout w' = stdout w ++ [CommentAdded] →
  docx_path s2 = docx_path s → output_path s2 = output_path s →
  disk w2 = disk w → stdout w2 = stdout w →
  add_comment_to_paragraph rac target comment author initials np s2 w2
  = (Returned, s',
     {| disk := disk w'; temp := temp w'; time := time w2;
        stdout := stdout w' |}).
Proof.
  intros H Hout Hp Ho Hd Hs.
  destruct (add_comment_added _ _ _ _ _ _ _ _ _ _ H Hout)
    as (d & d' & m & Hg & Hl & Ha & Hm & -> & ->).
  unfold add_comment_to_paragraph. rewrite Hg, Hp, Hd, Hl, Ha, Ho.
  unfold _unzip, _highest_existing_change_id. simpl.
  rewrite lookup_insert_eq. simpl. by rewrite Hm, Hs.
Qed.

Lemma modify_text_in_doc_frame old new fpt author s w o ids s1 w1 :
  modify_text_in_doc old new fpt author s w = (o, ids, s1, w1) →
  docx_path s1 = docx_path s ∧ output_path s1 = output_path s
  ∧ disk w1 = disk w ∧ temp w1 = temp w ∧ stdout w1 = stdout w.
Proof.
  unfold modify_text_in_doc. destruct (walk _ _ _ _ _ _).
  by intros [= <- <- <- <-].
Qed.

(** C10: a call of [add_comment_to_paragraph] that adds a comment opens
    the archive at [docx_path], writes the annotated copy to
    [output_path], and takes the session's tree and id counter from that
    file; the tree and the counter in memory play no part, so a
    substitution made before it and not saved leaves no trace in the
    session or on disk. *)
Theorem C10_comment_reloads_from_disk run_add_comment
    target_text comment_text author initials new_paragraph s w s' w' :
  add_comment_to_paragraph run_add_comment target_text comment_text author
    initials new_paragraph s w = (Returned, s', w') →
  stdout w' = stdout w ++ [CommentAdded] →
  (∃ d d' m,
     disk w !! docx_path s = Some d
     ∧ annotate run_add_comment target_text comment_text author initials
         new_paragraph d = inr (Some d')
     ∧ disk w' = <[output_path s := d']> (disk w)
     ∧ max_int (revision_ids (document d')) = Some m
     ∧ s' = {| docx_path := output_path s; output_path := output_path s;
               id_counter := m + 1; doc_tree := document d' |})
  ∧ (∀ tree ctr,
       add_comment_to_paragraph run_add_comment target_text comment_text
         author initials new_paragraph
         {| docx_path := docx_path s; output_path := output_path s;
            id_counter := ctr; doc_tree := tree |} w
       = (Returned, s', w'))
  ∧ (∀ old_text new_text full_paragraph_text author',
       ∃ o ids s1 w1 w2,
         modify_text_in_doc old_text new_text full_paragraph_text author' s w
         = (o, ids, s1, w1)
         ∧ add_comment_to_paragraph run_add_comment target_text comment_text
             author initials new_paragraph s1 w1
           = (Returned, s', w2)
         ∧ disk w2 = disk w' ∧ temp w2 = temp w' ∧ stdout w2 = stdout w').
Proof.
  intros H Hout. split_and!.
  - destruct (add_comment_added _ _ _ _ _ _ _ _ _ _ H Hout)
      as (d & d' & m & _ & Hl & Ha & Hm & -> & ->).
    by exists d, d', m.
  - intros tree ctr.
    rewrite (add_comment_frame _ _ _ _ _ _ s w s' w' _ w H Hout) by done.
    destruct (add_comment_added _ _ _ _ _ _ _ _ _ _ H Hout)
      as (d & d' & m & _ & _ & _ & _ & _ & ->). done.
  - intros old_text new_text fpt author'.
    destruct (modify_text_in_doc old_text new_text fpt author' s w)
      as [[[o ids] s1] w1] eqn:E.
    destruct (modify_text_in_doc_frame _ _ _ _ _ _ _ _ _ _ E)
      as (Hp & Ho & Hd & _ & Hs).
    eexists o, ids, s1, w1, _. split; [done |].
    split; [by apply (add_comment_frame _ _ _ _ _ _ s w s' w') |]. done.
Qed.

(** ** Runs and their text *)

Module DocxFacts.
Import Docx.

Lemma piece_new_t s : piece (new_t s) = s.
Proof. done. Qed.


















End DocxFacts.

(** ** Splitting a run and placing the anchor *)








(** ** The claims at concrete documents *)

Import Sample.




(** The scenario of the specification: the substitution in
    "See INTRODUCTION for details." *)
Example substitution_scenario :
  modify_para "INTRODUCTION" "FUAD WAS HERE" "Fuad" false
    (P [R [T "See INTRODUCTION for details."]]) estate0
  = ([P [R [T "See "];
         del_el "1" "Fuad" "2025-06-01T12:00:00" "INTRODUCTION";
         ins_el "1" "Fuad" "2025-06-01T12:00:00.000001" "FUAD WAS HERE";
         R [T " for details."]]],
     advanced estate0).
Proof. reflexivity. Qed.






(** The ids of that session: 8 and 9, after the 7 of the document. *)
Example change_ids_scenario :
  (substitutions two_calls session7 (world0 revised_doc)).1.1 = [8; 9].
Proof. reflexivity. Qed.




(** C8 as stated fails: with an empty old text and a document without
    text the call returns and nothing is raised. *)
Lemma C8_counterexample_no_failure :
  (modify_text_in_doc "" "Y" "" "Fuad"
     (session0 blank_doc) (world0 blank_doc)).1.1.1 = Returned
  ∧ (modify_text_in_doc "" "Y" "" "Fuad"
       (session0 intro_doc) (world0 intro_doc)).1.1.1 = Raised ValueError.
Proof. split; reflexivity. Qed.

(** The hypothesis of C8 holds for a target that is one space. *)
Lemma C8_witness :
  add_comment_to_paragraph file_comment " " "Please clarify." "Reviewer" "RV"
    false (session0 intro_doc) (world0 intro_doc)
  = (Returned, session0 intro_doc, print SkippingEmpty (world0 intro_doc))
  ∧ modify_text_in_doc "" "Y" "" "Fuad" (session0 intro_doc) (world0 intro_doc)
    = (if some_text (doc_tree (session0 intro_doc))
       then Raised ValueError else Returned,
       [], session0 intro_doc, world0 intro_doc).
Proof.
  apply (C8_blank_text_changes_nothing file_comment " " "Please clarify."
           "Reviewer" "RV" false "Y" "" "Fuad"
           (session0 intro_doc) (world0 intro_doc)).
  reflexivity.
Defined.

(** C9 as stated fails: the call returns [None] and prints nothing
    whether the old text is absent or present, so the absence is not
    reported; in the second call the tree is edited. *)
Lemma C9_counterexample_absence_not_reported :
  modify_text_in_doc "absent" "Y" "" "Fuad"
    (session0 intro_doc) (world0 intro_doc)
  = (Returned, [], session0 intro_doc, world0 intro_doc)
  ∧ (modify_text_in_doc "INTRODUCTION" "Y" "" "Fuad"
       (session0 intro_doc) (world0 intro_doc)).1.1.1 = Returned
  ∧ stdout (modify_text_in_doc "INTRODUCTION" "Y" "" "Fuad"
              (session0 intro_doc) (world0 intro_doc)).2
    = stdout (world0 intro_doc)
  ∧ doc_tree (modify_text_in_doc "INTRODUCTION" "Y" "" "Fuad"
                (session0 intro_doc) (world0 intro_doc)).1.2
    = Doc [P [R [T "See "];
              del_el "1" "Fuad" "2025-06-01T12:00:00" "INTRODUCTION";
              ins_el "1" "Fuad" "2025-06-01T12:00:00.000001" "Y";
              R [T " for details."]]].
Proof. split_and!; reflexivity. Qed.

(** The hypothesis of C9 holds for [intro_doc] and a text it lacks. *)
Lemma C9_witness :
  modify_text_in_doc "absent" "Y" "" "Fuad"
    (session0 intro_doc) (world0 intro_doc)
  = (Returned, [], session0 intro_doc, world0 intro_doc).
Proof.
  apply (C9_absent_text_leaves_tree "absent" "Y" "" "Fuad"
           (session0 intro_doc) (world0 intro_doc)).
  intros e He Ht. vm_compute in He.
  repeat (apply elem_of_cons in He as [->|He]);
    try discriminate Ht; try reflexivity.
  by apply elem_of_nil in He.
Defined.

(** The hypotheses of C10 hold for the comment on [title_doc]. *)
Lemma C10_witness :
  ∃ o ids s1 w1 w2,
    modify_text_in_doc "INTRODUCTION" "FUAD WAS HERE" "" "Fuad"
      (session0 title_doc) (world0 title_doc) = (o, ids, s1, w1)
    ∧ add_comment_to_paragraph file_comment "INTRODUCTION" "Please clarify."
        "Reviewer" "RV" false s1 w1
      = (Returned, commented_session, w2)
    ∧ disk w2 = disk commented_world ∧ temp w2 = temp commented_world
    ∧ stdout w2 = stdout commented_world.
Proof.
  destruct (C10_comment_reloads_from_disk file_comment "INTRODUCTION"
              "Please clarify." "Reviewer" "RV" false
              (session0 title_doc) (world0 title_doc)
              commented_session commented_world) as (_ & _ & H).
  - reflexivity.
  - reflexivity.
  - apply H.
Defined.

(** The substitution made before the comment is gone: the session ends
    with the tree of the saved file, which has no revision element, and
    with the counter at 1 again. *)
Example edit_before_comment_is_lost :
  let '(_, _, s1, w1) :=
    modify_text_in_doc "INTRODUCTION" "FUAD WAS HERE" "" "Fuad"
      (session0 title_doc) (world0 title_doc) in
  doc_tree s1
  = Doc [P [del_el "1" "Fuad" "2025-06-01T12:00:00" "INTRODUCTION";
            ins_el "1" "Fuad" "2025-06-01T12:00:00.000001" "FUAD WAS HERE"]]
  ∧ id_counter s1 = 2
  ∧ (add_comment_to_paragraph file_comment "INTRODUCTION" "Please clarify."
       "Reviewer" "RV" false s1 w1).1.2 = commented_session
  ∧ revision_ids (doc_tree commented_session) = [].
Proof. vm_compute. split_and!; reflexivity. Qed.

(** ** The string functions at concrete texts *)

Example find_first_occurrence : PyStr.find "lo" "hello lo" = Some 3%nat.
Proof. reflexivity. Qed.

Example partition_first_occurrence :
  PyStr.partition "X" "aXbXc" = Some ("a", "X", "bXc")
  ∧ PyStr.partition "X" "abc" = Some ("abc", "", "")
  ∧ PyStr.partition "" "abc" = None.
Proof. split_and!; reflexivity. Qed.

Example strip_both_ends : PyStr.strip "  a b  " = "a b".
Proof. reflexivity. Qed.

Example int_of_text :
  PyStr.int " -1_000 " = Some (-1000) ∧ PyStr.int "007" = Some 7
  ∧ PyStr.int "1__0" = None ∧ PyStr.int "" = None.
Proof. split_and!; reflexivity. Qed.

Example text_of_int :
  PyStr.str 12345 = "12345" ∧ PyStr.str (-70) = "-70" ∧ PyStr.str 0 = "0".
Proof. split_and!; reflexivity. Qed.

Example isoformat_without_microseconds :
  isoformat {| year := 987; month := 6; day := 1; hour := 2; minute := 3;
               second := 4; microsecond := 0 |} = "0987-06-01T02:03:04".
Proof. reflexivity. Qed.

(** A carriage return assigned to a run reads back as a line feed. *)
Example carriage_return_reads_back :
  Docx.run_text
    (Docx.set_run_text (String "a" (String "013" "b")) (R [strong_bold]))
  = String "a" (String "010" "b")
  ∧ kids_of (Docx.set_run_text (String "a" (String "013" "b")) (R [strong_bold]))
    = [strong_bold; T "a"; Elem "w:br" [] None []; T "b"].
Proof. split; reflexivity. Qed.

(** A text node directly below a paragraph: the revision elements become
    siblings of the paragraph. *)
Example text_node_below_paragraph :
  doc_tree (modify_text_in_doc "X" "Y" "" "Fuad"
              (session0 (Doc [P [T "aX"]; P [R [T "X"]]]))
              (world0 (Doc [P [T "aX"]; P [R [T "X"]]]))).1.2
  = Doc [P [T "a"];
         del_el "1" "Fuad" "2025-06-01T12:00:00" "X";
         ins_el "1" "Fuad" "2025-06-01T12:00:00.000001" "Y";
         P [del_el "2" "Fuad" "2025-06-01T12:00:00.000002" "X";
            ins_el "2" "Fuad" "2025-06-01T12:00:00.000003" "Y"]].
Proof. reflexivity. Qed.

(** * Further properties of the editor *)

(** ** Change ids as text *)

Module PyIntFacts.
Import PyStr.

Lemma digit_val_of r :
  (r < 10)%N → digit_val (ascii_of_N (48 + r)) = Some (Z.of_N r).
Proof.
  intros H.
  assert (E : (r = 0 ∨ r = 1 ∨ r = 2 ∨ r = 3 ∨ r = 4 ∨ r = 5 ∨ r = 6 ∨ r = 7
               ∨ r = 8 ∨ r = 9)%N) by lia.
  repeat (destruct E as [E|E]; [subst r; reflexivity |]). subst r; reflexivity.
Qed.

Lemma nat_digits_eq fuel n acc :
  nat_digits (S fuel) n acc =
  if (N.div n 10 =? 0)%N
  then String (ascii_of_N (48 + N.modulo n 10)) acc
  else nat_digits fuel (N.div n 10)
         (String (ascii_of_N (48 + N.modulo n 10)) acc).
Proof. done. Qed.

Lemma int_body_digit b a r s :
  (r < 10)%N →
  int_body b a (String (ascii_of_N (48 + r)) s)
  = int_body true (10 * a + Z.of_N r) s.
Proof. intros H. simpl. by rewrite (digit_val_of r H). Qed.

(** Reading the digits [nat_digits] writes. *)
Lemma int_body_nat_digits fuel : ∀ n acc,
  (n < 10 ^ N.of_nat (S fuel))%N →
  ∃ k, 0 ≤ k ∧ ∀ b a,
    int_body b a (nat_digits (S fuel) n acc)
    = int_body true (a * 10 ^ k + Z.of_N n) acc.
Proof.
  induction fuel as [|fuel IH]; intros n acc Hn; rewrite nat_digits_eq.
  - assert (n < 10)%N by (simpl in Hn; lia).
    rewrite (N.div_small n 10), (N.mod_small n 10), N.eqb_refl by lia.
    exists 1. split; [lia |]. intros b a.
    rewrite int_body_digit by lia. f_equal. lia.
  - destruct (N.eqb_spec (n / 10) 0) as [E|E].
    + assert (n < 10)%N.
      { apply N.div_small_iff in E; lia. }
      rewrite (N.mod_small n 10) by lia.
      exists 1. split; [lia |]. intros b a.
      rewrite int_body_digit by lia. f_equal. lia.
    + assert (Hd : (n / 10 < 10 ^ N.of_nat (S fuel))%N).
      { apply N.Div0.div_lt_upper_bound.
        replace (N.of_nat (S (S fuel))) with (N.succ (N.of_nat (S fuel))) in Hn by lia.
        rewrite N.pow_succ_r' in Hn. lia. }
      destruct (IH (n / 10)%N (String (ascii_of_N (48 + n mod 10)) acc) Hd)
        as (k & Hk & H).
      exists (k + 1). split; [lia |]. intros b a. rewrite H.
      rewrite int_body_digit by (apply N.mod_lt; lia). f_equal.
      rewrite Z.pow_add_r by lia.
      pose proof (N.div_mod n 10 ltac:(lia)) as Hdm.
      assert (Z.of_N n = 10 * Z.of_N (n / 10) + Z.of_N (n mod 10)) by lia.
      lia.
Qed.

Lemma pow2_le_pow10 (k : N) : (2 ^ k ≤ 10 ^ k)%N.
Proof. apply N.pow_le_mono_l. lia. Qed.

Lemma str_N_fuel n : (n < 10 ^ N.of_nat (S (N.to_nat (N.log2 n))))%N.
Proof.
  replace (N.of_nat (S (N.to_nat (N.log2 n)))) with (N.succ (N.log2 n)) by lia.
  destruct (N.eq_dec n 0%N) as [->|Hn]; [done |].
  pose proof (N.log2_spec n ltac:(lia)) as [_ H].
  pose proof (pow2_le_pow10 (N.succ (N.log2 n))). lia.
Qed.

(** The digits of a number read back as the number. *)
Lemma int_body_str_N n : int_body false 0 (str_N n) = Some (Z.of_N n).
Proof.
  unfold str_N.
  destruct (int_body_nat_digits _ n EmptyString (str_N_fuel n)) as (k & _ & H).
  by rewrite H.
Qed.

Lemma lstrip_no_space s : no_space s = true → lstrip s = s.
Proof.
  destruct s as [|c s]; simpl; [done |].
  intros [Hc _]%andb_true_iff. by destruct (isspace c).
Qed.

Lemma rev_app_rev_app s : ∀ a b,
  String.rev_app (String.rev_app s a) b = String.rev_app a (s +:+ b).
Proof.
  induction s as [|c s IH]; intros a b; simpl; [done |]. by rewrite IH.
Qed.

Lemma rev_rev s : String.rev (String.rev s) = s.
Proof.
  unfold String.rev. rewrite rev_app_rev_app. simpl.
  apply PyStrFacts.append_empty_r.
Qed.

Lemma no_space_rev_app s : ∀ a,
  no_space s = true → no_space a = true →
  no_space (String.rev_app s a) = true.
Proof.
  induction s as [|c s IH]; intros a; simpl; [done |].
  intros [Hc Hs]%andb_true_iff Ha. apply IH; [done |]. simpl. by rewrite Hc.
Qed.

(** A text without white space is its own [strip]. *)
Lemma strip_no_space s : no_space s = true → strip s = s.
Proof.
  intros H. unfold strip, rstrip. rewrite (lstrip_no_space s H).
  rewrite lstrip_no_space by (by apply no_space_rev_app).
  apply rev_rev.
Qed.

(** A text without white space that starts with a digit. *)
Lemma plain_digit r s :
  (r < 10)%N → no_space s = true → plain (String (ascii_of_N (48 + r)) s).
Proof.
  intros Hr Hs. split; [| eexists _, _; split; [done |]; by rewrite digit_val_of].
  assert (E : (r = 0 ∨ r = 1 ∨ r = 2 ∨ r = 3 ∨ r = 4 ∨ r = 5 ∨ r = 6 ∨ r = 7
               ∨ r = 8 ∨ r = 9)%N) by lia.
  repeat (destruct E as [E|E]; [subst r; exact Hs |]). subst r; exact Hs.
Qed.

Lemma nat_digits_plain fuel : ∀ n acc,
  plain acc → plain (nat_digits fuel n acc).
Proof.
  induction fuel as [|fuel IH]; intros n acc Ha; [done |].
  rewrite nat_digits_eq.
  assert (plain (String (ascii_of_N (48 + n mod 10)) acc)).
  { apply plain_digit; [apply N.mod_lt; lia | apply Ha]. }
  destruct (n / 10 =? 0)%N; [done | by apply IH].
Qed.

Lemma str_N_plain n : plain (str_N n).
Proof.
  unfold str_N. rewrite nat_digits_eq.
  assert (plain (String (ascii_of_N (48 + n mod 10)) EmptyString)).
  { apply plain_digit; [apply N.mod_lt; lia | done]. }
  destruct (n / 10 =? 0)%N; [done | by apply nat_digits_plain].
Qed.

(** [int] on a text without white space that starts with a digit. *)
Lemma int_plain s : plain s → int s = int_body false 0 s.
Proof.
  intros [Hs (c & s' & -> & [d Hd])]. unfold int.
  rewrite (strip_no_space _ Hs).
  destruct c as [[] [] [] [] [] [] [] []]; try done.
Qed.

End PyIntFacts.

(** The text [_next_change_id] writes for a counter value is read back
    by [int] as that value. *)
Lemma int_str (n : Z) : PyStr.int (PyStr.str n) = Some n.
Proof.
  destruct n as [|p|p]; [done | |].
  - simpl. rewrite PyIntFacts.int_plain by apply PyIntFacts.str_N_plain.
    by rewrite PyIntFacts.int_body_str_N.
  - unfold PyStr.str, PyStr.int.
    rewrite PyIntFacts.strip_no_space.
    + by rewrite PyIntFacts.int_body_str_N.
    + simpl. apply PyIntFacts.str_N_plain.
Qed.


(** ** Revision ids stay below the counter *)

Lemma revision_ids_own e : revision_ids e = omap own_id (elements e).
Proof. done. Qed.

Lemma revision_ids_elem a e :
  a ∈ revision_ids e ↔
  own_id e = Some a ∨ ∃ k, k ∈ kids_of e ∧ a ∈ revision_ids k.
Proof.
  rewrite !revision_ids_own, list_elem_of_omap. split.
  - intros (x & Hx & Ha). rewrite elements_eq in Hx.
    apply elem_of_cons in Hx as [->|Hx]; [by left |]. right.
    apply list_elem_of_In, in_concat in Hx as (l & Hl & Hx).
    apply in_map_iff in Hl as (k & <- & Hk).
    exists k. split; [by apply list_elem_of_In |].
    rewrite revision_ids_own. apply list_elem_of_omap. exists x.
    split; [by apply list_elem_of_In | done].
  - intros [Ha|(k & Hk & Ha)].
    + exists e. split; [apply elements_self | done].
    + rewrite revision_ids_own in Ha.
      apply list_elem_of_omap in Ha as (x & Hx & Ha).
      exists x. split; [by eapply elements_kid | done].
Qed.

Lemma ids_in_node S e :
  ids_in S e ↔
  (∀ a, own_id e = Some a → S a) ∧ Forall (ids_in S) (kids_of e).
Proof.
  unfold ids_in. rewrite Forall_forall. split.
  - intros H. split.
    + intros a Ha. apply H, revision_ids_elem. by left.
    + intros k Hk a Ha. apply H, revision_ids_elem. right. eauto.
  - intros [H1 H2] a [Ha|(k & Hk & Ha)]%revision_ids_elem; eauto.
Qed.

Lemma own_id_set_kids ks e : own_id (set_kids ks e) = own_id e.
Proof. by destruct e. Qed.

Lemma own_id_set_text x e : own_id (set_text x e) = own_id e.
Proof. by destruct e. Qed.

Lemma ids_in_set_kids S ks e :
  ids_in S e → Forall (ids_in S) ks → ids_in S (set_kids ks e).
Proof.
  rewrite !ids_in_node, kids_set_kids. intros [H _] Hks.
  split; [| done]. intros a. rewrite own_id_set_kids. apply H.
Qed.

Lemma ids_in_set_text S x e : ids_in S e → ids_in S (set_text x e).
Proof.
  rewrite !ids_in_node. intros [H1 H2]. split.
  - intros a. rewrite own_id_set_text. apply H1.
  - by destruct e.
Qed.

Lemma ids_in_alter_kids S f :
  (∀ ks, Forall (ids_in S) ks → Forall (ids_in S) (f ks)) →
  ∀ rho e, ids_in S e → ids_in S (alter_kids f rho e).
Proof.
  intros Hf. induction rho as [|i rho IH]; intros e He; simpl.
  - apply ids_in_set_kids; [done |]. apply Hf. by apply ids_in_node in He as [_ ?].
  - apply ids_in_set_kids; [done |].
    apply ids_in_node in He as [_ He]. apply Forall_alter; [done |].
    intros k _. apply IH.
Qed.

Lemma Forall_insert_at {A} (P : A → Prop) i x l :
  P x → Forall P l → Forall P (insert_at i x l).
Proof.
  intros Hx Hl. unfold insert_at. apply Forall_app. split.
  - by apply Forall_take.
  - constructor; [done | by apply Forall_drop].
Qed.

(** [splice] brings in no revision id but the one it is given. *)
Lemma splice_ids S old new author cid d1 d2 before after k j ks :
  S cid → Forall (ids_in S) ks →
  Forall (ids_in S) (splice old new author cid d1 d2 before after k j ks).
Proof.
  intros Hc Hks. unfold splice.
  assert (Hdel : ids_in S (del_el cid author d1 old)).
  { intros a Ha. cbn in Ha. by apply list_elem_of_singleton in Ha as ->. }
  assert (Hins : ids_in S (ins_el cid author d2 new)).
  { intros a Ha. cbn in Ha. by apply list_elem_of_singleton in Ha as ->. }
  assert (Haft : ids_in S (run_after after)).
  { intros a Ha. cbn in Ha. by apply elem_of_nil in Ha. }
  destruct (PyStr.truthy before).
  - assert (Forall (ids_in S)
      (alter (λ r, set_kids (alter (set_text (Some before)) j (kids_of r)) r)
         k ks)).
    { apply Forall_alter; [done |]. intros r _ Hr.
      apply ids_in_set_kids; [done |].
      apply ids_in_node in Hr as [_ Hr]. apply Forall_alter; [done |].
      intros t _. apply ids_in_set_text. }
    destruct (PyStr.truthy after); repeat apply Forall_insert_at; done.
  - assert (Forall (ids_in S) (delete k ks)) by (by apply Forall_delete).
    destruct (PyStr.truthy after); repeat apply Forall_insert_at; done.
Qed.

Lemma modify_para_ids S old new author top para st r st' :
  modify_para old new author top para st = (r, st') →
  (∀ c, counter st ≤ c < counter st' → S (PyStr.str c)) →
  ids_in S para → Forall (ids_in S) r.
Proof.
  unfold modify_para, edit, _next_change_id, utcnow_iso, tick.
  intros H HS Hp. revert H.
  repeat case_match; intros [= <- <-]; simpl in HS;
    try (by repeat constructor).
  - constructor; [| done]. apply ids_in_alter_kids; [| done].
    intros ks Hks. apply splice_ids; [apply HS; lia | done].
  - apply splice_ids; [apply HS; lia | by repeat constructor].
Qed.

Lemma walk_ids S old new author e :
  ∀ top st r st', walk old new author top e st = (r, st') →
  (∀ c, counter st ≤ c < counter st' → S (PyStr.str c)) →
  ids_in S e → Forall (ids_in S) r.
Proof.
  induction e as [t a x ks IH] using xml_ind'. intros top st r st'.
  rewrite walk_eq. destruct (has_tag _ _); [apply modify_para_ids |].
  cbn [kids_of].
  destruct (walk_kids old new author ks st) as [ks' st1] eqn:E.
  intros [= <- <-] HS He. constructor; [| done].
  apply (ids_in_set_kids S ks' (Elem t a x ks)); [done |].
  apply ids_in_node in He as [_ He]. cbn [kids_of] in He.
  clear t a x. revert st ks' st1 E HS He.
  induction IH as [|k ks Hk _ IHks]; intros st ks' st1; simpl.
  - by intros [= <- <-].
  - destruct (walk old new author false k st) as [r1 st2] eqn:E1.
    destruct (walk_kids old new author ks st2) as [r2 st3] eqn:E2.
    intros [= <- <-] HS [Hk1 Hks]%Forall_cons.
    destruct (walk_progress _ _ _ _ _ _ _ _ E1) as (n1 & ? & Hc1 & _).
    assert (∃ n2, 0 ≤ n2 ∧ counter st3 = counter st2 + n2) as (n2 & ? & Hc2).
    { clear -E2. revert st2 r2 st3 E2.
      induction ks as [|k' ks' IH']; intros st2 r2 st3; simpl.
      - intros [= <- <-]. exists 0. lia.
      - destruct (walk old new author false k' st2) as [ra sta] eqn:Ea.
        destruct (walk_kids old new author ks' sta) as [rb stb] eqn:Eb.
        intros [= <- <-].
        destruct (walk_progress _ _ _ _ _ _ _ _ Ea) as (na & ? & Ha & _).
        destruct (IH' _ _ _ Eb) as (nb & ? & Hb). exists (na + nb). lia. }
    apply Forall_app. split.
    + eapply Hk; [exact E1 | | done]. intros c Hc. apply HS. lia.
    + eapply IHks; [exact E2 | | done]. intros c Hc. apply HS. lia.
Qed.

Lemma ids_below_mono c c' tree :
  c ≤ c' → ids_below c tree → ids_below c' tree.
Proof.
  intros Hc H a Ha. destruct (H a Ha) as (v & Hv & Hlt).
  exists v. split; [done | lia].
Qed.

(** One call keeps the ids of the tree below the counter. *)
Lemma modify_text_in_doc_ids_below old new fpt author s w o ids s' w' :
  modify_text_in_doc old new fpt author s w = (o, ids, s', w') →
  ids_below (id_counter s) (doc_tree s) →
  ids_below (id_counter s') (doc_tree s').
Proof.
  unfold modify_text_in_doc.
  destruct (walk _ _ _ _ _ _) as [r st] eqn:E. intros [= <- <- <- <-] Hb.
  destruct (walk_progress _ _ _ _ _ _ _ _ E) as (n & ? & Hc & _).
  simpl in *. apply (ids_below_mono _ (counter st)) in Hb; [| lia].
  assert (Hr : Forall (ids_below (counter st)) r).
  { eapply walk_ids; [exact E | | exact Hb]. simpl. intros c Hcc.
    exists c. split; [apply int_str | lia]. }
  destruct r as [|e r]; simpl; [done |]. by apply Forall_cons in Hr as [? _].
Qed.

Lemma began_ids_below rac s :
  began rac s → ids_below (id_counter s) (doc_tree s).
Proof.
  intros Hb%began_seeded a Ha.
  destruct (max_int_spec _ _ Hb) as [_ H].
  destruct (H a Ha) as (v & Hv & Hle). exists v. split; [done | lia].
Qed.

(** X2: in a session that has just been created or reloaded, after any
    sequence of [modify_text_in_doc] calls every id of a [w:ins] or
    [w:del] element of the tree, those written by the calls included,
    is a number below the id counter: the next id is new to the whole
    tree. *)
Theorem ids_of_tree_stay_below_counter run_add_comment s calls w :
  began run_add_comment s →
  ids_below (id_counter (substitutions calls s w).1.2)
    (doc_tree (substitutions calls s w).1.2).
Proof.
  intros Hb%began_ids_below. revert s w Hb.
  induction calls as [|c calls IH]; intros s w Hb; simpl; [done |].
  destruct (modify_text_in_doc _ _ _ _ s w) as [[[o ids1] s1] w1] eqn:E1.
  specialize (IH s1 w1 (modify_text_in_doc_ids_below _ _ _ _ _ _ _ _ _ _ E1 Hb)).
  by destruct (substitutions calls s1 w1) as [[ids2 s2] w2].
Qed.

(** ** When a substitution raises *)




(** ** Text split over several nodes *)

Lemma get_elements pi : ∀ e x, get pi e = Some x → x ∈ elements e.
Proof.
  induction pi as [|i pi IH]; intros e x; simpl.
  - intros [= <-]. apply elements_self.
  - destruct (kids_of e !! i) as [k|] eqn:Hk; [| done]. simpl. intros Hx.
    eapply elements_kid; [by eapply list_elem_of_lookup_2 | by apply IH].
Qed.

Lemma elements_trans e : ∀ P x, P ∈ elements e → x ∈ elements P → x ∈ elements e.
Proof.
  induction e as [t a x0 ks IH] using xml_ind'. intros P x HP Hx.
  rewrite elements_eq in HP. apply elem_of_cons in HP as [->|HP]; [done |].
  apply list_elem_of_In, in_concat in HP as (l & Hl & HP).
  apply in_map_iff in Hl as (k & <- & Hk).
  apply list_elem_of_In in Hk, HP.
  eapply (elements_kid (Elem t a x0 ks)); [exact Hk |].
  rewrite Forall_forall in IH. by eapply IH.
Qed.

(** X4: the old text is looked for inside single [w:t] nodes.  When no
    [w:t] of the tree holds it, the call changes nothing and hands out no
    id, also when the old text stands in a paragraph, split over several
    nodes. *)
Theorem text_across_nodes_is_not_replaced
    old_text new_text full_paragraph_text author s w :
  (∀ t, t ∈ elements (doc_tree s) → has_tag "w:t" t = true →
        PyStr.contains old_text (text_or_empty t) = false) →
  modify_text_in_doc old_text new_text full_paragraph_text author s w
  = (Returned, [], s, w).
Proof.
  intros H. unfold modify_text_in_doc.
  rewrite walk_quiet; [simpl; by rewrite session_eta, world_eta |].
  intros P HP _. apply locate_None. intros [pi t] Hd.
  apply xpath_desc_tag in Hd as (Ht & Hg & _). simpl.
  unfold matches. rewrite H; [by rewrite andb_false_r | | done].
  eapply elements_trans; [exact HP | by eapply get_elements].
Qed.

(** ** A comment target split over several runs *)




(** ** What reaches the files *)

Lemma substitutions_frame calls : ∀ s w ids s1 w1,
  substitutions calls s w = (ids, s1, w1) →
  docx_path s1 = docx_path s ∧ output_path s1 = output_path s
  ∧ disk w1 = disk w ∧ temp w1 = temp w ∧ stdout w1 = stdout w.
Proof.
  induction calls as [|c calls IH]; intros s w ids s1 w1; simpl.
  - by intros [= <- <- <-].
  - destruct (modify_text_in_doc _ _ _ _ s w) as [[[o i1] s2] w2] eqn:E.
    destruct (substitutions calls s2 w2) as [[i2 s3] w3] eqn:E2.
    intros [= <- <- <-].
    apply modify_text_in_doc_frame in E as (<- & <- & <- & <- & <-).
    by apply IH in E2.
Qed.

(** X6: the [paragraphs] property reads the archive at [docx_path], not
    the tree in memory: what it gives is the same before and after a
    call of [modify_text_in_doc], and still the same after [save] when
    the session writes to another path than it reads from. *)
Theorem paragraphs_miss_the_edits
    old_text new_text full_paragraph_text author s w o ids s1 w1 o2 w2 :
  modify_text_in_doc old_text new_text full_paragraph_text author s w
  = (o, ids, s1, w1) →
  save s1 w1 = (o2, w2) →
  output_path s ≠ docx_path s →
  paragraphs s1 w1 = paragraphs s w ∧ paragraphs s1 w2 = paragraphs s w.
Proof.
  intros (Hp & Ho & Hd & _ & _)%modify_text_in_doc_frame Hs Hne.
  unfold paragraphs. rewrite Hp, Hd. split; [done |].
  revert Hs. unfold save. destruct (temp w1); intros [= <- <-]; simpl.
  - rewrite Ho, lookup_insert_ne, Hd; done.
  - by rewrite Hd.
Qed.


Lemma init_Some docx_path output_path w s w1 :
  init docx_path output_path w = (inr s, w1) →
  ∃ d m, disk w !! docx_path = Some d
    ∧ max_int (revision_ids (document d)) = Some m
    ∧ s = {| docx_path := docx_path;
             output_path := output_path;
             id_counter := m + 1; doc_tree := document d |}
    ∧ w1 = {| disk := disk w; temp := Some d; time := time w;
              stdout := stdout w |}.
Proof.
  unfold init, _unzip, _highest_existing_change_id.
  destruct (disk w !! docx_path) as [d|]; [| done]. simpl.
  destruct (max_int _) as [m|] eqn:E; [| done].
  intros [= <- <-]. by exists d, m.
Qed.

(** X8: a session that is created and saved at once writes to
    [output_path] the archive it read from [docx_path], and removes the
    temporary directory. *)
Theorem open_then_save_copies docx_path output_path w s w1 :
  init docx_path output_path w = (inr s, w1) →
  ∃ d, disk w !! docx_path = Some d
    ∧ save s w1
      = (Returned,
         {| disk := <[output_path := d]> (disk w); temp := None;
            time := time w; stdout := stdout w |}).
Proof.
  intros (d & m & Hd & _ & -> & ->)%init_Some. exists d. split; [done |].
  unfold save. simpl. by destruct d.
Qed.

(** X9: after any sequence of substitutions on a newly created session,
    [save] returns and writes to [output_path] the tree of the session
    with the styles and comments of the archive that was opened; the
    other archives stay, nothing is printed and the temporary directory
    is removed. *)
Theorem open_edit_save docx_path output_path w s w1 calls ids s2 w2 :
  init docx_path output_path w = (inr s, w1) →
  substitutions calls s w1 = (ids, s2, w2) →
  ∃ d, disk w !! docx_path = Some d
    ∧ save s2 w2
      = (Returned,
         {| disk := <[output_path :=
                       {| document := doc_tree s2;
                          char_styles := char_styles d;
                          comments := comments d |}]> (disk w);
            temp := None; time := time w2; stdout := stdout w |}).
Proof.
  intros (d & m & Hd & _ & -> & ->)%init_Some
         (_ & Ho & Hdk & Ht & Hs)%substitutions_frame.
  exists d. split; [done |]. unfold save. simpl in *.
  by rewrite Ht, Ho, Hdk, Hs.
Qed.

(** X10: the order of the entry point.  After a call that added a comment,
    any sequence of substitutions and [save], the archive at
    [output_path] holds the tree of the session, which the substitutions
    made from the annotated document, together with the styles and
    comments of the annotated archive; the other archives are those from
    before the comment. *)
Theorem comment_edit_save run_add_comment
    target_text comment_text author initials new_paragraph
    s w s1 w1 calls ids s2 w2 :
  add_comment_to_paragraph run_add_comment target_text comment_text author
    initials new_paragraph s w = (Returned, s1, w1) →
  stdout w1 = stdout w ++ [CommentAdded] →
  substitutions calls s1 w1 = (ids, s2, w2) →
  ∃ d d',
    disk w !! docx_path s = Some d
    ∧ annotate run_add_comment target_text comment_text author initials
        new_paragraph d = inr (Some d')
    ∧ doc_tree s1 = document d'
    ∧ save s2 w2
      = (Returned,
         {| disk := <[output_path s :=
                       {| document := doc_tree s2;
                          char_styles := char_styles d';
                          comments := comments d' |}]> (disk w);
            temp := None; time := time w2;
            stdout := stdout w ++ [CommentAdded] |}).
Proof.
  intros H Hout Hsub.
  destruct (add_comment_added _ _ _ _ _ _ _ _ _ _ H Hout)
    as (d & d' & m & _ & Hd & Ha & _ & -> & ->).
  apply substitutions_frame in Hsub as (_ & Ho & Hdk & Ht & Hs).
  exists d, d'. split_and!; [done | done | done |].
  unfold save. simpl in *. rewrite Ht, Ho, Hdk, Hs. by rewrite insert_insert_eq.
Qed.

(** ** The paragraph that receives the anchor *)





(** ** The text of a paragraph after a substitution *)















(** ** Opening an archive *)

Lemma max_int_None ids a :
  a ∈ ids → PyStr.int a = None → max_int ids = None.
Proof.
  intros Ha Hn. unfold max_int.
  destruct (mapM PyStr.int ids) as [ns|] eqn:E; [| done].
  assert (Hs : is_Some (mapM PyStr.int ids)) by (by rewrite E).
  apply mapM_is_Some in Hs. rewrite Forall_forall in Hs.
  destruct (Hs a Ha) as [v Hv]. simpl in Hv. congruence.
Qed.

(** X13: an archive whose document has a [w:ins] or [w:del] with an id
    that [int] does not read cannot be opened: [__init__] raises
    [ValueError] after the archive was extracted, and no archive is
    changed. *)
Theorem init_rejects_unreadable_id docx_path output_path w d a :
  disk w !! docx_path = Some d →
  a ∈ revision_ids (document d) → PyStr.int a = None →
  init docx_path output_path w
  = (inl ValueError,
     {| disk := disk w; temp := Some d; time := time w;
        stdout := stdout w |}).
Proof.
  intros Hd Ha Hn. unfold init, _unzip, _highest_existing_change_id.
  rewrite Hd. simpl. by rewrite (max_int_None _ _ Ha Hn).
Qed.

(** ** The text of a paragraph after a comment *)







(** ** The further properties on the sample documents *)

(** [int_str] on the ids of the samples. *)
Example ids_read_back :
  PyStr.int (PyStr.str 8) = Some 8 ∧ PyStr.str 1234 = "1234"
  ∧ PyStr.int "0012" = Some 12 ∧ PyStr.int "x1" = None.
Proof. split_and!; reflexivity. Qed.

(** The session created on [revised_doc] has begun; after the two calls
    the ids of its tree, 7, 8 and 9, are below the counter. *)
Lemma ids_stay_below_witness :
  began file_comment session7
  ∧ ids_below
      (id_counter (substitutions two_calls session7 (opened revised_doc)).1.2)
      (doc_tree (substitutions two_calls session7 (opened revised_doc)).1.2).
Proof.
  assert (H : began file_comment session7).
  { apply (began_init file_comment "in.docx" "out.docx" (world0 revised_doc) _
             (opened revised_doc)).
    reflexivity. }
  split; [exact H |].
  apply (ids_of_tree_stay_below_counter file_comment session7 two_calls
           (opened revised_doc) H).
Defined.


Ltac among H :=
  vm_compute in H;
  repeat (apply elem_of_cons in H as [->|H]);
  try (by apply elem_of_nil in H).

(** In [split_doc] no text node holds ["INTRODUCTION"], its paragraph
    does: nothing is replaced. *)
Lemma text_across_nodes_witness :
  PyStr.contains "INTRODUCTION"
    (get_full_text (P [R [T "INTRO"]; R [T "DUCTION"]])) = true
  ∧ modify_text_in_doc "INTRODUCTION" "Y" "" "Fuad"
      (session0 split_doc) (opened split_doc)
    = (Returned, [], session0 split_doc, opened split_doc).
Proof.
  split; [reflexivity |].
  apply (text_across_nodes_is_not_replaced "INTRODUCTION" "Y" "" "Fuad"
           (session0 split_doc) (opened split_doc)).
  intros t Ht Htag. among Ht; try discriminate Htag; reflexivity.
Defined.


(** A substitution on [intro_doc] and [save] to [out.docx]: the
    [paragraphs] are those of [in.docx] throughout. *)
Lemma paragraphs_witness :
  paragraphs
    (modify_text_in_doc "INTRODUCTION" "Y" "" "Fuad"
       (session0 intro_doc) (opened intro_doc)).1.2
    (save
       (modify_text_in_doc "INTRODUCTION" "Y" "" "Fuad"
          (session0 intro_doc) (opened intro_doc)).1.2
       (modify_text_in_doc "INTRODUCTION" "Y" "" "Fuad"
          (session0 intro_doc) (opened intro_doc)).2).2
  = inr [P [R [T "See INTRODUCTION for details."]]]
  ∧ paragraphs (session0 intro_doc) (opened intro_doc)
    = inr [P [R [T "See INTRODUCTION for details."]]].
Proof.
  split; [| reflexivity].
  refine (eq_trans (proj2 (paragraphs_miss_the_edits "INTRODUCTION" "Y" ""
            "Fuad" (session0 intro_doc) (opened intro_doc) _ _ _ _ _ _
            eq_refl eq_refl _)) eq_refl).
  discriminate.
Defined.


(** Opening [in.docx] and saving at once copies it to [out.docx]. *)
Lemma open_then_save_witness :
  init "in.docx" "out.docx" (world0 intro_doc)
  = (inr (session0 intro_doc), opened intro_doc)
  ∧ ∃ d, disk (world0 intro_doc) !! "in.docx" = Some d
    ∧ save (session0 intro_doc) (opened intro_doc)
      = (Returned,
         {| disk := <["out.docx" := d]> (disk (world0 intro_doc));
            temp := None; time := time (world0 intro_doc);
            stdout := stdout (world0 intro_doc) |}).
Proof.
  assert (H : init "in.docx" "out.docx" (world0 intro_doc)
              = (inr (session0 intro_doc), opened intro_doc)) by reflexivity.
  split; [exact H |].
  apply (open_then_save_copies "in.docx" "out.docx" (world0 intro_doc)
           (session0 intro_doc) (opened intro_doc) H).
Defined.

(** Opening the archive of [revised_doc], the two calls, [save]. *)
Lemma open_edit_save_witness :
  init "in.docx" "out.docx" (world0 revised_doc)
  = (inr session7, opened revised_doc)
  ∧ ∃ d, disk (world0 revised_doc) !! "in.docx" = Some d
    ∧ save (substitutions two_calls session7 (opened revised_doc)).1.2
        (substitutions two_calls session7 (opened revised_doc)).2
      = (Returned,
         {| disk :=
              <["out.docx" :=
                 {| document :=
                      doc_tree (substitutions two_calls session7
                                  (opened revised_doc)).1.2;
                    char_styles := char_styles d;
                    comments := comments d |}]>
                (disk (world0 revised_doc));
            temp := None;
            time := time (substitutions two_calls session7
                            (opened revised_doc)).2;
            stdout := stdout (world0 revised_doc) |}).
Proof.
  assert (H : init "in.docx" "out.docx" (world0 revised_doc)
              = (inr session7, opened revised_doc)) by reflexivity.
  split; [exact H |].
  apply (open_edit_save "in.docx" "out.docx" (world0 revised_doc) session7
           (opened revised_doc) two_calls
           (substitutions two_calls session7 (opened revised_doc)).1.1 _ _ H).
  reflexivity.
Defined.

(** The entry point on [title_doc]: the comment, a substitution, [save].
    The saved archive has the comment and the substituted text. *)
Lemma comment_edit_save_witness :
  add_comment_to_paragraph file_comment "INTRODUCTION" "Please clarify."
    "Reviewer" "RV" false (session0 title_doc) (world0 title_doc)
  = (Returned, commented_session, commented_world)
  ∧ ∃ d d' s2 w2,
      substitutions [{| c_old_text := "INTRODUCTION";
                        c_new_text := "FUAD WAS HERE";
                        c_full_paragraph_text := ""; c_author := "Fuad" |}]
        commented_session commented_world = ([1], s2, w2)
      ∧ disk (world0 title_doc) !! "in.docx" = Some d
      ∧ annotate file_comment "INTRODUCTION" "Please clarify." "Reviewer"
          "RV" false d = inr (Some d')
      ∧ comments d' = [("Please clarify.", "Reviewer", "RV")]
      ∧ save s2 w2
        = (Returned,
           {| disk := <["out.docx" :=
                         {| document := doc_tree s2;
                            char_styles := char_styles d';
                            comments := comments d' |}]>
                        (disk (world0 title_doc));
              temp := None; time := time w2;
              stdout := [CommentAdded] |}).
Proof.
  assert (H : add_comment_to_paragraph file_comment "INTRODUCTION"
                "Please clarify." "Reviewer" "RV" false
                (session0 title_doc) (world0 title_doc)
              = (Returned, commented_session, commented_world))
    by reflexivity.
  split; [exact H |].
  destruct (comment_edit_save file_comment "INTRODUCTION" "Please clarify."
              "Reviewer" "RV" false (session0 title_doc) (world0 title_doc)
              commented_session commented_world
              [{| c_old_text := "INTRODUCTION";
                  c_new_text := "FUAD WAS HERE";
                  c_full_paragraph_text := ""; c_author := "Fuad" |}]
              [1] _ _ H eq_refl eq_refl)
    as (d & d' & Hd & Ha & _ & Hs).
  exists d, d'. eexists _, _. split; [reflexivity |].
  split; [exact Hd |]. split; [exact Ha |]. split; [| exact Hs].
  vm_compute in Hd. injection Hd as <-.
  vm_compute in Ha. by injection Ha as <-.
Defined.



(** The archive of [bad_id_doc], whose insertion has the id ["x1"],
    cannot be opened. *)
Lemma init_rejects_witness :
  "x1" ∈ revision_ids bad_id_doc ∧ PyStr.int "x1" = None
  ∧ init "in.docx" "out.docx" (world0 bad_id_doc)
    = (inl ValueError, opened bad_id_doc).
Proof.
  assert (H : "x1" ∈ revision_ids bad_id_doc) by apply (list_elem_of_here "x1" []).
  split; [exact H |]. split; [reflexivity |].
  apply (init_rejects_unreadable_id "in.docx" "out.docx" (world0 bad_id_doc)
           (file bad_id_doc) "x1" eq_refl H eq_refl).
Defined.

